(** * hostd-pin: the rate averager and the threshold-gated price update

    A shallow embedding of the Go sources of hostd-pin:
    - package [rate] (the [Averager]: [getExchangeRate], [Update], [Rate],
      [New] and its options), and
    - package [main] of [hpind] ([isOverThreshold], [convertToCurrency],
      [updateHosts] and the body of the decision loop of [main]),
    together with the parts of the two libraries the code computes with:
    the arbitrary-precision decimals of [shopspring/decimal] and the 128-bit
    [types.Currency] of [go.sia.tech/core].

    Conventions.  A Go panic is an explicit outcome ([Panicked]); a Go
    [error] is a value of the type [error]; a function that mutates its
    receiver returns the new receiver.  The logger and the two remote
    collaborators (the quote service and the hosts' settings endpoint) are
    modelled by what they are given and what they answer. *)

From Stdlib Require Import ZArith QArith Qabs Qpower Qround Lia Lqa.
From Stdlib Require Import Ascii String DecimalString DecimalPos DecimalZ.
From stdpp Require Import gmap strings list.

Local Open Scope Z_scope.

(* ===================================================================== *)
(** * Part I: the program                                                *)
(* ===================================================================== *)

(** ** Panics, errors and outcomes *)

(** Go's [error] values, as far as the program meets them: an opaque error
    of a collaborator, [errors.New] or [fmt.Errorf] with a fixed text, and
    [fmt.Errorf(format, args..., err)] wrapping [err] with [%w]. *)
Inductive error : Type :=
  | Opaque (msg : string)
  | Errorf (msg : string)
  | Wrapf (format : string) (args : list string) (inner : error).

(** The values the program can panic with. *)
Inductive panic : Type :=
  | DecimalDivisionByZero          (* shopspring: decimal division by 0 *)
  | ExponentOverflow (e : Z)       (* shopspring: exponent e overflows an int32! *)
  | QuoRemOverflow                 (* shopspring: overflow in decimal QuoRem *)
  | IntegerDivideByZero            (* Go runtime: integer divide by zero *)
  | NonPositiveInterval            (* time.NewTicker with an interval <= 0 *)
  | PanicError (e : error).        (* panic(err), log.Panic *)

(** The outcome of a call: it returns, or it panics. *)
Inductive exec (A : Type) : Type :=
  | Returned (a : A)
  | Panicked (p : panic).
Arguments Returned {A} a.
Arguments Panicked {A} p.

(** A panic propagates through the rest of the function. *)
#[global] Instance exec_ret : MRet exec := fun A a => Returned a.
#[global] Instance exec_bind : MBind exec := fun A B k m =>
  match m with
  | Returned a => k a
  | Panicked p => Panicked p
  end.

(** ** shopspring/decimal *)

Module decimal.

(** [Decimal] is [value * 10 ^ exp]; [value] is a [*big.Int] and [exp] an
    [int32] in Go.  The record keeps the exponent in [Z]; the decimals of
    the program are the [representable] ones.  The two operations of the
    library that compute a new exponent in [int64] and check it against
    the range of [int32], [Mul] and [QuoRem], panic here as they do there. *)
Record Decimal : Type := mkDecimal { value : Z; exp : Z }.

(** [math.MaxInt32] and [math.MinInt32]. *)
Definition MaxInt32 : Z := 2147483647.
Definition MinInt32 : Z := -2147483648.

(** An exponent that fits an [int32]. *)
Definition int32 (e : Z) : Prop := MinInt32 <= e <= MaxInt32.

#[global] Instance int32_dec (e : Z) : Decision (int32 e).
Proof. unfold int32. apply _. Defined.

(** A decimal that Go can hold. *)
Definition representable (d : Decimal) : Prop := int32 (exp d).

#[global] Instance representable_dec (d : Decimal) : Decision (representable d).
Proof. unfold representable. apply _. Defined.

(** Go's zero value [Decimal{}]: a nil [value], which every operation
    reads as 0, and [exp] 0. *)
Definition zero_value : Decimal := mkDecimal 0 0.

Definition DivisionPrecision : Z := 16.

Definition New (v e : Z) : Decimal := mkDecimal v e.
Definition NewFromInt (v : Z) : Decimal := mkDecimal v 0.

(** [var Zero = New(0, 1)] *)
Definition Zero : Decimal := New 0 1.

Definition rescale (d : Decimal) (e : Z) : Decimal :=
  if exp d =? e then d
  else
    let diff := Z.abs (e - exp d) in
    let expScale := 10 ^ diff in
    if e >? exp d then mkDecimal (Z.quot (value d) expScale) e
    else mkDecimal (value d * expScale) e.

Definition RescalePair (d1 d2 : Decimal) : Decimal * Decimal :=
  if exp d1 =? exp d2 then (d1, d2)
  else
    let baseScale := Z.min (exp d1) (exp d2) in
    if negb (baseScale =? exp d1) then (rescale d1 baseScale, d2)
    else (d1, rescale d2 baseScale).

Definition Add (d d2 : Decimal) : Decimal :=
  let '(rd, rd2) := RescalePair d d2 in
  mkDecimal (value rd + value rd2) (exp rd).

Definition Sub (d d2 : Decimal) : Decimal :=
  let '(rd, rd2) := RescalePair d d2 in
  mkDecimal (value rd - value rd2) (exp rd).

(** [Mul]: the exponents are added in [int64]; a sum outside [int32]
    panics. *)
Definition Mul (d d2 : Decimal) : exec Decimal :=
  let expInt64 := exp d + exp d2 in
  if (expInt64 >? MaxInt32) || (expInt64 <? MinInt32)
  then Panicked (ExponentOverflow expInt64)
  else Returned (mkDecimal (value d * value d2) expInt64).

Definition Abs (d : Decimal) : Decimal :=
  mkDecimal (Z.abs (value d)) (exp d).

Definition Cmp (d d2 : Decimal) : comparison :=
  let '(rd, rd2) := RescalePair d d2 in
  value rd ?= value rd2.

Definition GreaterThan (d d2 : Decimal) : bool :=
  match Cmp d d2 with Gt => true | _ => false end.

(** [QuoRem]: the quotient truncated to [precision] fractional digits and
    the remainder, so that [d = d2 * q + r].  A zero divisor panics; so
    does a difference of the scales, computed in [int64], that does not
    fit an [int32]. *)
Definition QuoRem (d d2 : Decimal) (precision : Z) : exec (Decimal * Decimal) :=
  if value d2 =? 0 then Panicked DecimalDivisionByZero
  else
    let scale := - precision in
    let e := exp d - exp d2 - scale in
    if (e >? MaxInt32) || (e <? MinInt32) then Panicked QuoRemOverflow
    else
      let '(aa, bb, scalerest) :=
        if e <? 0 then (value d, value d2 * 10 ^ (- e), exp d)
        else (value d * 10 ^ e, value d2, scale + exp d2) in
      Returned (mkDecimal (Z.quot aa bb) scale, mkDecimal (Z.rem aa bb) scalerest).

(** [DivRound]: the quotient rounded to [precision] fractional digits, a
    remainder of half a unit or more rounding away from zero.  The two
    sums [scale + exp d2] of [QuoRem] and [exp r + precision] are sums of
    [int32] in Go, which wrap around: the first can only wrap for
    [exp d2 < MinInt32 + precision], and then the second wraps back, so
    that [r2] has the exponent it has here, [exp d2], in either case (and
    [exp d + precision], below [exp d2], when [e < 0]). *)
Definition DivRound (d d2 : Decimal) (precision : Z) : exec Decimal :=
  '(q, r) ← QuoRem d d2 precision;
  let rv2 := Z.abs (value r) * 2 in
  let r2 := mkDecimal rv2 (exp r + precision) in
  match Cmp r2 (Abs d2) with
  | Lt => Returned q
  | _ =>
      if Z.sgn (value d) * Z.sgn (value d2) <? 0
      then Returned (Sub q (New 1 (- precision)))
      else Returned (Add q (New 1 (- precision)))
  end.

Definition Div (d d2 : Decimal) : exec Decimal :=
  DivRound d d2 DivisionPrecision.

(** [Round]: to [places] fractional digits, half away from zero. *)
Definition Round (d : Decimal) (places : Z) : Decimal :=
  if exp d =? - places then d
  else
    let ret := rescale d (- places - 1) in
    let v := if value ret <? 0 then value ret - 5 else value ret + 5 in
    let q := v / 10 in
    let m := v mod 10 in
    let q := if (q <? 0) && negb (m =? 0) then q + 1 else q in
    mkDecimal q (exp ret + 1).

(** [big.Int.String]: the decimal numeral, with a leading minus sign for
    a negative number. *)
Definition bigint_String (z : Z) : string :=
  NilZero.string_of_int (Z.to_int z).

Fixpoint repeat0 (n : nat) : string :=
  match n with
  | O => EmptyString
  | S n => String.String "0"%char (repeat0 n)
  end.

(** The string without its trailing ["0"] characters. *)
Fixpoint trim_trailing_zeros (s : string) : string :=
  match s with
  | EmptyString => EmptyString
  | String.String c s' =>
      match trim_trailing_zeros s' with
      | EmptyString => if Ascii.eqb c "0"%char then EmptyString else String.String c EmptyString
      | t => String.String c t
      end
  end.

(** [String] ([d.string(true)]): the integer numeral when [0 <= exp], else
    the integer part, a point and the fractional digits without trailing
    zeros. *)
Definition String (d : Decimal) : string :=
  if 0 <=? exp d then bigint_String (value (rescale d 0))
  else
    let str := bigint_String (Z.abs (value d)) in
    let len := Z.of_nat (String.length str) in
    let '(intPart, fractionalPart) :=
      if len >? - exp d
      then (substring 0 (Z.to_nat (len + exp d)) str,
            substring (Z.to_nat (len + exp d)) (Z.to_nat (- exp d)) str)
      else ("0"%string, (repeat0 (Z.to_nat (- exp d - len)) +:+ str)%string) in
    let fractionalPart := trim_trailing_zeros fractionalPart in
    let number :=
      if (0 <? Z.of_nat (String.length fractionalPart))
      then (intPart +:+ "." +:+ fractionalPart)%string else intPart in
    if value d <? 0 then ("-" +:+ number)%string else number.

(** The rational number a decimal stands for. *)
Definition toQ (d : Decimal) : Q :=
  (inject_Z (value d) * Qpower (inject_Z 10) (exp d))%Q.

End decimal.

(** ** go.sia.tech/core/types: Currency *)

Module types.

(** [Currency] is an unsigned 128-bit integer in two 64-bit halves. *)
Record Currency : Type := NewCurrency { Lo : Z; Hi : Z }.

Definition ZeroCurrency : Currency := NewCurrency 0 0.

(** The number a [Currency] stands for ([Currency.Big]). *)
Definition Big (c : Currency) : Z := Lo c + Hi c * 2 ^ 64.

(** The [Currency] of a number below [2 ^ 128]. *)
Definition of_Big (i : Z) : Currency :=
  NewCurrency (i mod 2 ^ 64) (Z.shiftr i 64 mod 2 ^ 64).

(** [big.Int.SetString(s, 10)]: an optional sign and at least one digit. *)
Definition bigint_SetString (s : string) : option Z :=
  match s with
  | EmptyString => None
  | String.String a s' =>
      if Ascii.eqb a "-"%char
      then option_map (fun u => - Z.of_uint u) (NilZero.uint_of_string s')
      else if Ascii.eqb a "+"%char
      then option_map Z.of_uint (NilZero.uint_of_string s')
      else option_map Z.of_uint (NilZero.uint_of_string s)
  end.

(** [big.Int.BitLen] of a number that is not negative. *)
Definition BitLen (i : Z) : Z := Z.log2 i + (if i =? 0 then 0 else 1).

Definition parseExactCurrency (s : string) : Currency * option error :=
  match bigint_SetString s with
  | None => (ZeroCurrency, Some (Errorf "not an integer"))
  | Some i =>
      if i <? 0 then (ZeroCurrency, Some (Errorf "value cannot be negative"))
      else if BitLen i >? 128
      then (ZeroCurrency, Some (Errorf "value overflows Currency representation"))
      else (of_Big i, None)
  end.

(** [ParseCurrency] on a numeral without a unit: the exact value in
    hastings.  The branch for a numeral followed by a unit ([SC], [mS], ...)
    is left out: [decimal.String] never prints one. *)
Definition ParseCurrency (s : string) : Currency * option error :=
  parseExactCurrency s.

(** [Div64]: the quotient by a 64-bit divisor; dividing by zero panics. *)
Definition Div64 (c : Currency) (v : Z) : exec Currency :=
  if v =? 0 then Panicked IntegerDivideByZero
  else Returned (of_Big (Big c / v)).

End types.

(** ** go.uber.org/zap, as far as the program logs *)

Module zap.

Inductive Level : Type := DebugLevel | ErrorLevel.

(** A structured field: [zap.Stringer] of a decimal or of a currency,
    [zap.String] and [zap.Error]. *)
Inductive Field : Type :=
  | StringerDecimal (key : string) (d : decimal.Decimal)
  | StringerCurrency (key : string) (c : types.Currency)
  | String_ (key : string) (val : string)
  | Error (e : error).

Record Entry : Type :=
  mkEntry { level : Level; message : string; fields : list Field }.

(** A logger: whether it discards what it is given ([zap.NewNop]), and the
    fields [With] has attached to it. *)
Record Logger : Type := mkLogger { nop : bool; context : list Field }.

Definition NewNop : Logger := mkLogger true [].

Definition With (l : Logger) (fs : list Field) : Logger :=
  mkLogger (nop l) (context l ++ fs).

(** What one logging call writes. *)
Definition write (l : Logger) (lvl : Level) (msg : string) (fs : list Field)
  : list Entry :=
  if nop l then [] else [mkEntry lvl msg (context l ++ fs)].

(** [Named]: the name of the logger travels with its entries, under the
    key [logger] of the production encoder configuration. *)
Definition Named (l : Logger) (name : string) : Logger :=
  With l [String_ "logger" name].

End zap.

(** ** Package time *)

Module time.

(** [time.Duration] is an [int64] count of nanoseconds. *)
Definition Duration : Type := Z.
Definition Nanosecond : Duration := 1.
Definition Second : Duration := 1000000000 * Nanosecond.
Definition Minute : Duration := 60 * Second.
Definition Hour : Duration := 60 * Minute.

End time.

(** ** Package rate *)

Module rate.
Import decimal.

Section Averager.

(** The rates of the quote service are [float64]s; [decimal.NewFromFloat]
    turns one into the decimal of its shortest numeral.  Both belong to the
    Go runtime and to the decimal library and are taken as they are. *)
Context {float64 : Type} (NewFromFloat : float64 -> Decimal).

(** What [apisdkgo]'s [GetExchangeRate] answers: the rates by currency and
    an error. *)
Record Quote : Type :=
  mkQuote { quoted : gmap string float64; failure : option error }.

Definition getExchangeRate (currency : string) (sc : Quote)
  : Decimal * option error :=
  match failure sc with
  | Some err => (Zero, Some err)
  | None =>
      match quoted sc !! currency with
      | None => (Zero, Some (Errorf "currency not found"))
      | Some rate => (NewFromFloat rate, None)
      end
  end.

(** [Averager] tracks the average exchange rate for a currency over a
    period of time.  The mutex [mu] guards [rates] and [average]: [Update]
    and [Rate] are atomic with respect to each other, which is how the
    sequential model runs them. *)
Record Averager : Type := mkAverager {
  log : zap.Logger;
  currency : string;
  frequency : time.Duration;
  rates : list Decimal;
  average : Decimal
}.

(** [Update] updates the average exchange rate for the configured
    currency.  It answers the averager as the call leaves it, the two
    results of the Go function and what was logged. *)
Definition Update (ra : Averager) (sc : Quote)
  : exec (Averager * (Decimal * option error) * list zap.Entry) :=
  let '(rate, err) := getExchangeRate (currency ra) sc in
  match err with
  | Some err =>
      Returned (ra, (Zero, Some (Wrapf "failed to get exchange rate: %w" [] err)), [])
  | None =>
      if frequency ra =? 0 then Panicked IntegerDivideByZero
      else
        let maxRates := Z.quot (48 * time.Hour) (frequency ra) in
        let rates1 := rates ra ++ [rate] in
        let rates2 :=
          if Z.of_nat (length rates1) >? maxRates then drop 1 rates1 else rates1 in
        let sum := foldl Add Zero rates2 in
        average' ← Div sum (NewFromInt (Z.of_nat (length rates2)));
        Returned
          (mkAverager (log ra) (currency ra) (frequency ra) rates2 average',
           (rate, None),
           zap.write (log ra) zap.DebugLevel "exchange rate updated"
             [zap.StringerDecimal "current" rate;
              zap.StringerDecimal "average" average'])
  end.

(** [Run] updates the average at the configured frequency until its context
    is done: one [Update] for each tick, here one for each quote of
    [ticks].  A failed update is logged and the loop goes on. *)
Fixpoint Run_loop (ra : Averager) (ticks : list Quote)
  : exec (Averager * list zap.Entry) :=
  match ticks with
  | [] => Returned (ra, [])
  | sc :: ticks =>
      '(ra', (_, err), out) ← Update ra sc;
      let out :=
        match err with
        | Some err =>
            zap.write (log ra) zap.ErrorLevel "failed to update exchange rate"
              [zap.Error err]
        | None => out
        end in
      '(ra'', out') ← Run_loop ra' ticks;
      Returned (ra'', out ++ out')
  end.

Definition Run (ra : Averager) (ticks : list Quote)
  : exec (Averager * list zap.Entry) :=
  if frequency ra <=? 0 then Panicked NonPositiveInterval
  else Run_loop ra ticks.

(** [Rate] returns the average exchange rate for the configured currency. *)
Definition Rate (ra : Averager) : Decimal := average ra.

(** An [Option] configures an averager. *)
Definition Option : Type := Averager -> Averager.

Definition WithCurrency (currency' : string) : Option :=
  fun ra => mkAverager (log ra) currency' (frequency ra) (rates ra) (average ra).

Definition WithFrequency (frequency' : time.Duration) : Option :=
  fun ra => mkAverager (log ra) (currency ra) frequency' (rates ra) (average ra).

Definition WithLogger (log' : zap.Logger) : Option :=
  fun ra => mkAverager log' (currency ra) (frequency ra) (rates ra) (average ra).

(** The options the package exports; the fields of an [Averager] are not
    visible outside it, so these are all a caller can pass. *)
Inductive exported : Option -> Prop :=
  | exported_WithCurrency c : exported (WithCurrency c)
  | exported_WithFrequency f : exported (WithFrequency f)
  | exported_WithLogger l : exported (WithLogger l).

(** [New] creates a new averager with the provided options. *)
Definition New (opts : list Option) : Averager :=
  foldl (fun a opt => opt a)
    (mkAverager zap.NewNop "usd" (5 * time.Minute) [] zero_value) opts.

(** The calls of [Update] one after the other, as long as none panics;
    the results of each call are collected. *)
Fixpoint Updates (ra : Averager) (scs : list Quote)
  : exec (Averager * list (Decimal * option error)) :=
  match scs with
  | [] => Returned (ra, [])
  | sc :: scs =>
      '(ra', res, _) ← Update ra sc;
      '(ra'', ress) ← Updates ra' scs;
      Returned (ra'', res :: ress)
  end.

End Averager.

End rate.

(** ** Package main of hpind *)

Module hpind.
Import decimal types.

(** [Prices] are the target prices for the host. *)
Record Prices : Type := mkPrices {
  Storage : Decimal;
  Ingress : Decimal;
  Egress : Decimal
}.

(** [Host] is a host that should have its prices updated. *)
Record Host : Type := mkHost { Address : string; Password : string }.

(** [Config] is the configuration for the hostd-pin application. *)
Record Config : Type := mkConfig {
  Hosts : list Host;
  Prices_ : Prices;
  Currency_ : string;
  Frequency : time.Duration;
  Threshold : Decimal
}.

(** The settings one call of [UpdateSettings] sends. *)
Record Settings : Type := mkSettings {
  MinStoragePrice : Currency;
  MinIngressPrice : Currency;
  MinEgressPrice : Currency
}.

(** The hosts' API: what [api.NewClient(address, password).UpdateSettings]
    answers to the settings it is sent, [None] for success. *)
Definition API : Type := Host -> Settings -> option error.

(** What a round does that can be observed from outside. *)
Inductive event : Type :=
  | UpdateSettings (h : Host) (s : Settings)
  | Log (e : zap.Entry).

Definition isOverThreshold (a b percentage : Decimal) : exec bool :=
  threshold ← Mul a percentage;
  let diff := Abs (Sub a b) in
  Returned (GreaterThan diff threshold).

Definition convertToCurrency (target rate : Decimal) : exec Currency :=
  quotient ← Div target rate;
  scaled ← Mul quotient (New 1 24);
  let hastings := String (Round scaled 0) in
  let '(c, err) := ParseCurrency hastings in
  match err with
  | Some err => Panicked (PanicError err)
  | None => Returned c
  end.

(** The loop of [updateHosts] over the hosts: it returns at the first host
    whose call fails. *)
Fixpoint updateHosts_loop (api : API) (log : zap.Logger) (s : Settings)
    (hosts : list Host) : option error * list event :=
  match hosts with
  | [] => (None, [])
  | h :: hosts =>
      match api h s with
      | Some err =>
          (Some (Wrapf "failed to update host %q: %w" [Address h] err),
           [UpdateSettings h s])
      | None =>
          let '(res, evs) := updateHosts_loop api log s hosts in
          (res,
           UpdateSettings h s
             :: map Log (zap.write log zap.DebugLevel "updated host"
                           [zap.String_ "host" (Address h)])
             ++ evs)
      end
  end.

Definition updateHosts (api : API) (hosts : list Host) (target : Prices)
    (rate : Decimal) (log : zap.Logger) : exec (option error * list event) :=
  storagePrice ← (c ← convertToCurrency (Storage target) rate;
                  c ← Div64 c 4320; Div64 c (10 ^ 12));
  ingressPrice ← (c ← convertToCurrency (Ingress target) rate; Div64 c (10 ^ 12));
  egressPrice ← (c ← convertToCurrency (Egress target) rate; Div64 c (10 ^ 12));
  let log := zap.With log
    [zap.StringerDecimal "rate" rate;
     zap.StringerCurrency "storage" storagePrice;
     zap.StringerCurrency "ingress" ingressPrice;
     zap.StringerCurrency "egress" egressPrice] in
  Returned (updateHosts_loop api log
              (mkSettings storagePrice ingressPrice egressPrice) hosts).

(** One turn of the loop of [main] at a tick of its timer: [average] is
    what [r.Rate()] answers then, [api] how the hosts answer during the
    turn.  The result is the new [lastRate] and what the turn did. *)
Definition tick (cfg : Config) (logger : zap.Logger) (api : API)
    (lastRate average : Decimal) : exec (Decimal * list event) :=
  over ← isOverThreshold lastRate average (Threshold cfg);
  if negb over then
    Returned (lastRate,
              map Log (zap.write logger zap.DebugLevel "skipping update"
                         [zap.StringerDecimal "old" lastRate;
                          zap.StringerDecimal "new" average]))
  else
    let lastRate := average in
    '(err, evs) ← updateHosts api (Hosts cfg) (Prices_ cfg) average logger;
    match err with
    | Some err =>
        Returned (lastRate,
                  evs ++ map Log (zap.write logger zap.ErrorLevel
                                    "failed to update hosts" [zap.Error err]))
    | None => Returned (lastRate, evs)
    end.

(** The loop of [main]: a turn for each tick until the context is done.
    A panic in a turn ends the process. *)
Fixpoint loop (cfg : Config) (logger : zap.Logger) (lastRate : Decimal)
    (ticks : list (Decimal * API)) : exec (Decimal * list event) :=
  match ticks with
  | [] => Returned (lastRate, [])
  | (average, api) :: ticks =>
      '(lastRate', evs) ← tick cfg logger api lastRate average;
      '(lastRate'', evs') ← loop cfg logger lastRate' ticks;
      Returned (lastRate'', evs ++ evs')
  end.

End hpind.

(** ** The vocabulary of the specification *)

Module spec.
Import decimal.

(** The nearest integer, a half rounding away from zero. *)
Definition round_half_away (x : Q) : Z :=
  Z.sgn (Qnum x) * Qfloor (Qabs x + (1 # 2)).

(** The sum of rationals. *)
Definition Qsum (l : list Q) : Q := foldr Qplus 0%Q l.

(** The arithmetic mean of decimals: their sum divided by their count. *)
Definition mean (l : list Decimal) : Q :=
  (Qsum (map toQ l) / inject_Z (Z.of_nat (length l)))%Q.

(** The window of the averager and the number of samples it holds:
    [floor (window / interval)]. *)
Definition window : time.Duration := 48 * time.Hour.
Definition capacity (interval : time.Duration) : Z := window / interval.

(** The one kind of failure of a refresh: the quote is unavailable. *)
Definition QuoteUnavailable (e : error) : Prop :=
  exists cause, e = Wrapf "failed to get exchange rate: %w" [] cause.

(** A refresh succeeded when its error result is nil. *)
Definition succeeded (res : Decimal * option error) : Prop := res.2 = None.

(** A buffer of at most [cap] samples takes a new one at its end and gives
    up its oldest one when it is over its capacity. *)
Definition fifo_push (cap : Z) (buffer : list Decimal) (x : Decimal)
  : list Decimal :=
  let l := buffer ++ [x] in
  if Z.of_nat (length l) >? cap then drop 1 l else l.

(** The mean rounded half away from zero to the 16 fractional digits of
    [DivisionPrecision]. *)
Definition rounded_mean (l : list Decimal) : Decimal :=
  mkDecimal (round_half_away (mean l * inject_Z 10 ^ 16)) (-16).

(** The difference of scales [QuoRem] checks when [Update] divides the sum
    of a buffer by its length. *)
Definition mean_scale (buffer : list Decimal) : Z :=
  exp (foldl Add Zero buffer) + DivisionPrecision.

Section Outcomes.
Context {float64 : Type} (NewFromFloat : float64 -> Decimal).

(** The five ways a call of [Update] can end. *)
Inductive Update_outcome (ra : rate.Averager) (sc : rate.Quote)
  : exec (rate.Averager * (Decimal * option error) * list zap.Entry) -> Prop :=
  | Update_unavailable r cause :
      rate.getExchangeRate NewFromFloat (rate.currency ra) sc = (r, Some cause) ->
      Update_outcome ra sc
        (Returned (ra, (Zero, Some (Wrapf "failed to get exchange rate: %w" [] cause)), []))
  | Update_no_interval x :
      rate.getExchangeRate NewFromFloat (rate.currency ra) sc = (x, None) ->
      rate.frequency ra = 0 ->
      Update_outcome ra sc (Panicked IntegerDivideByZero)
  | Update_no_sample x :
      rate.getExchangeRate NewFromFloat (rate.currency ra) sc = (x, None) ->
      rate.frequency ra <> 0 ->
      fifo_push (Z.quot window (rate.frequency ra)) (rate.rates ra) x = [] ->
      Update_outcome ra sc (Panicked DecimalDivisionByZero)
  | Update_overflow x buffer :
      rate.getExchangeRate NewFromFloat (rate.currency ra) sc = (x, None) ->
      rate.frequency ra <> 0 ->
      fifo_push (Z.quot window (rate.frequency ra)) (rate.rates ra) x = buffer ->
      buffer <> [] ->
      ~ int32 (mean_scale buffer) ->
      Update_outcome ra sc (Panicked QuoRemOverflow)
  | Update_refreshed x buffer :
      rate.getExchangeRate NewFromFloat (rate.currency ra) sc = (x, None) ->
      rate.frequency ra <> 0 ->
      fifo_push (Z.quot window (rate.frequency ra)) (rate.rates ra) x = buffer ->
      buffer <> [] ->
      int32 (mean_scale buffer) ->
      Update_outcome ra sc
        (Returned
           (rate.mkAverager (rate.log ra) (rate.currency ra) (rate.frequency ra)
              buffer (rounded_mean buffer),
            (x, None),
            zap.write (rate.log ra) zap.DebugLevel "exchange rate updated"
              [zap.StringerDecimal "current" x;
               zap.StringerDecimal "average" (rounded_mean buffer)])).

End Outcomes.

(** The difference of scales [QuoRem] checks when [convertToCurrency]
    divides the target by the rate. *)
Definition quotient_scale (target rate : Decimal) : Z :=
  exp target - exp rate + DivisionPrecision.

(** The amount in hastings [convertToCurrency] arrives at: the quotient of
    target and rate rounded half away from zero to the 16 fractional digits
    of [DivisionPrecision], times [10 ^ 24]. *)
Definition hastings (target rate : Decimal) : Z :=
  round_half_away (toQ target / toQ rate * inject_Z 10 ^ 16) * 10 ^ 8.

(** The amount in the words of the specification: the target divided by
    the rate, scaled by [10 ^ 24] and rounded to an integer. *)
Definition spec_hastings (target rate : Decimal) : Z :=
  round_half_away (toQ target / toQ rate * inject_Z 10 ^ 24).

(** The three conversions at the head of [updateHosts]. *)
Definition target_settings (target : hpind.Prices) (rate : Decimal)
  : exec hpind.Settings :=
  storagePrice ← (c ← hpind.convertToCurrency (hpind.Storage target) rate;
                  c ← types.Div64 c 4320; types.Div64 c (10 ^ 12));
  ingressPrice ← (c ← hpind.convertToCurrency (hpind.Ingress target) rate;
                  types.Div64 c (10 ^ 12));
  egressPrice ← (c ← hpind.convertToCurrency (hpind.Egress target) rate;
                 types.Div64 c (10 ^ 12));
  Returned (hpind.mkSettings storagePrice ingressPrice egressPrice).

(** The logger [updateHosts] writes with. *)
Definition round_logger (log : zap.Logger) (rate : Decimal) (s : hpind.Settings)
  : zap.Logger :=
  zap.With log
    [zap.StringerDecimal "rate" rate;
     zap.StringerCurrency "storage" (hpind.MinStoragePrice s);
     zap.StringerCurrency "ingress" (hpind.MinIngressPrice s);
     zap.StringerCurrency "egress" (hpind.MinEgressPrice s)].

(** The hosts a round has called, in the order of the calls. *)
Fixpoint called (evs : list hpind.event) : list hpind.Host :=
  match evs with
  | [] => []
  | hpind.UpdateSettings h _ :: evs => h :: called evs
  | hpind.Log _ :: evs => called evs
  end.

(** The error [updateHosts] makes of the failure of a host. *)
Definition host_failure (h : hpind.Host) (cause : error) : error :=
  Wrapf "failed to update host %q: %w" [hpind.Address h] cause.

End spec.

(** ** Concrete inputs *)

Module examples.
Import decimal.

(** The quote service answers with decimal numerals here: the [float64]
    of a numeral is the one [NewFromFloat] turns back into it. *)
Definition numeral (d : Decimal) : Decimal := d.

(** A quote for US dollars, and a service that cannot be reached. *)
Definition usd (d : Decimal) : @rate.Quote Decimal :=
  rate.mkQuote {[ "usd"%string := d ]} None.
Definition unreachable : @rate.Quote Decimal :=
  rate.mkQuote ∅ (Some (Opaque "connection refused")).

(** Thousandths. *)
Definition milli (n : Z) : Decimal := New n (-3).

(** An averager that samples once a day, and one that samples once a
    week. *)
Definition daily : list rate.Option := [rate.WithFrequency (24 * time.Hour)].
Definition weekly : list rate.Option := [rate.WithFrequency (168 * time.Hour)].

Definition hostA : hpind.Host := hpind.mkHost "http://a:9980/api" "sia is cool".
Definition hostB : hpind.Host := hpind.mkHost "http://b:9980/api" "sia is cool".

(** Every host answers; the host at [address] refuses; every host
    refuses. *)
Definition all_up : hpind.API := fun _ _ => None.
Definition down (address : string) : hpind.API :=
  fun h _ =>
    if String.eqb (hpind.Address h) address
    then Some (Opaque "connection refused") else None.
Definition all_down : hpind.API := fun _ _ => Some (Opaque "connection refused").

(** The configuration [main] starts from, with two hosts. *)
Definition defaults : hpind.Config :=
  hpind.mkConfig [hostA; hostB]
    (hpind.mkPrices (New 1 0) (New 1 (-1)) (New 1 1))
    "usd" (5 * time.Minute) (New 1 (-1)).

(** The same with a storage price below zero. *)
Definition negative_storage : hpind.Config :=
  hpind.mkConfig [hostA; hostB]
    (hpind.mkPrices (New (-1) 0) (New 1 (-1)) (New 1 1))
    "usd" (5 * time.Minute) (New 1 (-1)).

Definition console : zap.Logger := zap.mkLogger false [].

End examples.

(** ** main, from the averager it creates to its two loops *)

Module hpind_main.
Import decimal hpind.

Section Main.
Context {float64 : Type} (NewFromFloat : float64 -> Decimal).

(** The start of [main] once the configuration is loaded and the logger is
    set up: the averager, the first refresh, which must succeed, and the
    first round at the rate just observed.  [sc] is what the quote service
    answers to that refresh and [api] how the hosts answer in that round.
    [log.Panic] panics with its message and the error. *)
Definition startup (cfg : Config) (logger : zap.Logger)
    (sc : rate.Quote) (api : API)
  : exec (rate.Averager * Decimal * list event) :=
  let r := rate.New [rate.WithCurrency (Currency_ cfg);
                     rate.WithFrequency (Frequency cfg);
                     rate.WithLogger (zap.Named logger "rate")] in
  '(r, (lastRate, err), out) ← rate.Update NewFromFloat r sc;
  match err with
  | Some err =>
      Panicked (PanicError (Wrapf "failed to get initial exchange rate" [] err))
  | None =>
      '(err, evs) ← updateHosts api (Hosts cfg) (Prices_ cfg) lastRate logger;
      Returned (r, lastRate,
                map Log out ++ evs ++
                match err with
                | Some err =>
                    map Log (zap.write logger zap.ErrorLevel
                               "failed to update hosts" [zap.Error err])
                | None => []
                end)
  end.

(** After the start two loops run side by side: [Run] refreshes the
    averager at each tick of its ticker, the loop of [main] takes a turn at
    each tick of its own.  The mutex of the averager makes the change of a
    refresh and the read of [Rate] atomic, so a run of the process is the
    ticks of both loops in the order in which they take the mutex. *)
Inductive step : Type :=
  | Sample (sc : @rate.Quote float64)  (* a tick of [Run]: its quote *)
  | Decide (api : API).                (* a tick of [main]: the hosts *)

Fixpoint steps (cfg : Config) (logger : zap.Logger) (r : rate.Averager)
    (lastRate : Decimal) (sched : list step)
  : exec (rate.Averager * Decimal * list event) :=
  match sched with
  | [] => Returned (r, lastRate, [])
  | Sample sc :: sched =>
      '(r', (_, err), out) ← rate.Update NewFromFloat r sc;
      let out :=
        match err with
        | Some err =>
            zap.write (rate.log r) zap.ErrorLevel "failed to update exchange rate"
              [zap.Error err]
        | None => out
        end in
      '(r'', lastRate', evs) ← steps cfg logger r' lastRate sched;
      Returned (r'', lastRate', map Log out ++ evs)
  | Decide api :: sched =>
      '(lastRate', evs) ← tick cfg logger api lastRate (rate.Rate r);
      '(r'', lastRate'', evs') ← steps cfg logger r lastRate' sched;
      Returned (r'', lastRate'', evs ++ evs')
  end.

(** [main] after its set-up: the start, then the two loops; the ticker of
    [Run] panics on an interval that is not positive. *)
Definition run (cfg : Config) (logger : zap.Logger) (sc : rate.Quote)
    (api : API) (sched : list step)
  : exec (rate.Averager * Decimal * list event) :=
  '(r, lastRate, evs) ← startup cfg logger sc api;
  if rate.frequency r <=? 0 then Panicked NonPositiveInterval
  else
    '(r', lastRate', evs') ← steps cfg logger r lastRate sched;
    Returned (r', lastRate', evs ++ evs').

End Main.
End hpind_main.

(** ** More vocabulary *)

Module terms.
Import decimal spec.

Section Samples.
Context {float64 : Type} (NewFromFloat : float64 -> Decimal).

(** The sample a quote holds for a currency, when it holds one. *)
Definition sample (cur : string) (sc : rate.Quote) : option Decimal :=
  match rate.getExchangeRate NewFromFloat cur sc with
  | (x, None) => Some x
  | (_, Some _) => None
  end.

(** The samples of a sequence of quotes, in their order. *)
Definition samples (cur : string) (scs : list rate.Quote) : list Decimal :=
  omap (sample cur) scs.

(** The level of the entry [Run] writes at a tick. *)
Definition tick_level (cur : string) (sc : rate.Quote) : zap.Level :=
  match sample cur sc with
  | Some _ => zap.DebugLevel
  | None => zap.ErrorLevel
  end.

(** The samples the averager takes in a schedule of the two loops: those
    of the ticks of [Run] whose quote carries the currency, in their
    order. *)
Definition schedule_samples (cur : string) (sched : list hpind_main.step)
  : list Decimal :=
  omap (fun st => match st with
                  | hpind_main.Sample sc => sample cur sc
                  | hpind_main.Decide _ => None
                  end) sched.

End Samples.

(** The last [cap] elements of a list. *)
Definition last_n {A : Type} (cap : Z) (l : list A) : list A :=
  drop (length l - Z.to_nat cap) l.

(** Options that do not set the currency, the frequency, the logger. *)
Definition keeps_currency (o : rate.Option) : Prop :=
  (exists f, o = rate.WithFrequency f) \/ (exists l, o = rate.WithLogger l).
Definition keeps_frequency (o : rate.Option) : Prop :=
  (exists c, o = rate.WithCurrency c) \/ (exists l, o = rate.WithLogger l).
Definition keeps_log (o : rate.Option) : Prop :=
  (exists c, o = rate.WithCurrency c) \/ (exists f, o = rate.WithFrequency f).

(** The averager holds a sample and its average is up to date. *)
Definition refreshed (ra : rate.Averager) : Prop :=
  rate.rates ra <> [] /\ rate.average ra = rounded_mean (rate.rates ra).

(** The calls of a round and what each one sent. *)
Fixpoint sent (evs : list hpind.event) : list (hpind.Host * hpind.Settings) :=
  match evs with
  | [] => []
  | hpind.UpdateSettings h s :: evs => (h, s) :: sent evs
  | hpind.Log _ :: evs => sent evs
  end.

(** The entries a round has logged. *)
Fixpoint logged (evs : list hpind.event) : list zap.Entry :=
  match evs with
  | [] => []
  | hpind.UpdateSettings _ _ :: evs => logged evs
  | hpind.Log e :: evs => e :: logged evs
  end.

End terms.

(* ===================================================================== *)
(** * Part II: what the program does                                     *)
(* ===================================================================== *)

(** ** Decimals denote rationals *)

Module decimal_facts.
Import decimal.

Abbreviation ten := (inject_Z 10).

Lemma ten_nonzero : ~ (ten == 0)%Q.
Proof. discriminate. Qed.

Lemma pow10_pos (e : Z) : (0 < ten ^ e)%Q.
Proof. apply Qpower_0_lt. reflexivity. Qed.

Lemma pow10_nonzero (e : Z) : ~ (ten ^ e == 0)%Q.
Proof. pose proof (pow10_pos e) as H. intros E. rewrite E in H. inversion H. Qed.

Lemma pow10_add (a b : Z) : (ten ^ (a + b) == ten ^ a * ten ^ b)%Q.
Proof. apply Qpower_plus, ten_nonzero. Qed.

Lemma pow10_inject (k : Z) : 0 <= k -> (inject_Z (10 ^ k) == ten ^ k)%Q.
Proof. apply Zpower_Qpower. Qed.

Lemma pow10_Zpos (k : Z) : 0 <= k -> 0 < 10 ^ k.
Proof. intros. apply Z.pow_pos_nonneg; lia. Qed.

(** Moving to a smaller exponent multiplies the coefficient and keeps the
    number. *)
Lemma toQ_rescale (d : Decimal) (e : Z) :
  e <= exp d -> (toQ (rescale d e) == toQ d)%Q.
Proof.
  intros Hle. unfold rescale.
  destruct (Z.eqb_spec (exp d) e) as [|Hne]; [reflexivity|].
  destruct (Z.gtb_spec e (exp d)) as [Hgt|_]; [lia|].
  unfold toQ; cbn [value exp].
  replace (Z.abs (e - exp d)) with (exp d - e) by lia.
  rewrite inject_Z_mult, pow10_inject by lia.
  assert (ten ^ exp d == ten ^ (exp d - e) * ten ^ e)%Q as ->.
  { rewrite <- pow10_add. replace (exp d - e + e) with (exp d) by lia. reflexivity. }
  ring.
Qed.

Lemma exp_rescale (d : Decimal) (e : Z) : exp (rescale d e) = e.
Proof.
  unfold rescale. destruct (Z.eqb_spec (exp d) e); [assumption|].
  destruct (e >? exp d); reflexivity.
Qed.

(** [RescalePair] brings both decimals to the smaller exponent. *)
Lemma RescalePair_spec (d1 d2 : Decimal) :
  exp (RescalePair d1 d2).1 = Z.min (exp d1) (exp d2) /\
  exp (RescalePair d1 d2).2 = Z.min (exp d1) (exp d2) /\
  (toQ (RescalePair d1 d2).1 == toQ d1)%Q /\
  (toQ (RescalePair d1 d2).2 == toQ d2)%Q.
Proof.
  unfold RescalePair.
  destruct (Z.eqb_spec (exp d1) (exp d2)) as [E|NE]; cbn [fst snd].
  - repeat split; try reflexivity; lia.
  - destruct (Z.eqb_spec (Z.min (exp d1) (exp d2)) (exp d1)) as [E1|NE1];
      cbn [negb fst snd]; rewrite ?exp_rescale.
    + repeat split; try reflexivity; try lia. apply toQ_rescale; lia.
    + repeat split; try reflexivity; try lia. apply toQ_rescale; lia.
Qed.

Lemma toQ_Add (d d2 : Decimal) : (toQ (Add d d2) == toQ d + toQ d2)%Q.
Proof.
  unfold Add. pose proof (RescalePair_spec d d2) as (E1 & E2 & Q1 & Q2).
  destruct (RescalePair d d2) as [rd rd2]; cbn [fst snd] in *.
  rewrite <- Q1, <- Q2. unfold toQ; cbn [value exp].
  rewrite inject_Z_plus, E1, E2. ring.
Qed.

Lemma toQ_Sub (d d2 : Decimal) : (toQ (Sub d d2) == toQ d - toQ d2)%Q.
Proof.
  unfold Sub. pose proof (RescalePair_spec d d2) as (E1 & E2 & Q1 & Q2).
  destruct (RescalePair d d2) as [rd rd2]; cbn [fst snd] in *.
  rewrite <- Q1, <- Q2. unfold toQ; cbn [value exp].
  unfold Z.sub. rewrite inject_Z_plus, inject_Z_opp, E1, E2. ring.
Qed.

(** The check of the library, read as a proposition. *)
Lemma int32_check (e : Z) :
  (e >? MaxInt32) || (e <? MinInt32) = false <-> int32 e.
Proof.
  unfold int32. rewrite orb_false_iff, Z.gtb_ltb, !Z.ltb_ge. lia.
Qed.

(** [Mul] returns the exact product when the sum of the exponents fits an
    [int32], and panics when it does not. *)
Lemma Mul_fits (d d2 : Decimal) :
  int32 (exp d + exp d2) ->
  Mul d d2 = Returned (mkDecimal (value d * value d2) (exp d + exp d2)).
Proof.
  intros H. apply int32_check in H. unfold Mul. rewrite H. reflexivity.
Qed.

Lemma Mul_overflow (d d2 : Decimal) :
  ~ int32 (exp d + exp d2) ->
  Mul d d2 = Panicked (ExponentOverflow (exp d + exp d2)).
Proof.
  intros H. unfold Mul.
  destruct ((exp d + exp d2 >? MaxInt32) || (exp d + exp d2 <? MinInt32)) eqn:C;
    [reflexivity|].
  apply int32_check in C. contradiction.
Qed.

Lemma Mul_Returned (d d2 m : Decimal) :
  Mul d d2 = Returned m ->
  int32 (exp d + exp d2) /\ m = mkDecimal (value d * value d2) (exp d + exp d2).
Proof.
  intros H. destruct (int32_dec (exp d + exp d2)) as [F|F].
  - rewrite (Mul_fits _ _ F) in H. injection H as <-. split; [exact F|reflexivity].
  - rewrite (Mul_overflow _ _ F) in H. discriminate.
Qed.

Lemma toQ_Mul (d d2 m : Decimal) :
  Mul d d2 = Returned m -> (toQ m == toQ d * toQ d2)%Q.
Proof.
  intros H. apply Mul_Returned in H as [_ ->].
  unfold toQ; cbn [value exp].
  rewrite inject_Z_mult, pow10_add. ring.
Qed.

Lemma inject_Z_abs (z : Z) : (inject_Z (Z.abs z) == Qabs (inject_Z z))%Q.
Proof. unfold inject_Z. apply Zabs_Qabs. Qed.

Lemma toQ_Abs (d : Decimal) : (toQ (Abs d) == Qabs (toQ d))%Q.
Proof.
  unfold Abs, toQ; cbn [value exp].
  rewrite Qabs_Qmult, inject_Z_abs.
  rewrite (Qabs_pos (ten ^ exp d)); [reflexivity|].
  apply Qlt_le_weak, pow10_pos.
Qed.

(** Comparing coefficients at a common exponent compares the numbers. *)
Lemma Qcompare_scaled (a b : Z) (c : Q) :
  (0 < c)%Q -> (inject_Z a * c ?= inject_Z b * c)%Q = (a ?= b).
Proof.
  intros Hc.
  destruct (Z.compare_spec a b) as [E|L|G].
  - subst. apply Qeq_alt. reflexivity.
  - apply Qlt_alt. apply Qmult_lt_compat_r; [assumption|].
    rewrite <- Zlt_Qlt. assumption.
  - apply Qgt_alt. apply Qmult_lt_compat_r; [assumption|].
    rewrite <- Zlt_Qlt. assumption.
Qed.

Lemma Cmp_toQ (d d2 : Decimal) : Cmp d d2 = (toQ d ?= toQ d2)%Q.
Proof.
  unfold Cmp. pose proof (RescalePair_spec d d2) as (E1 & E2 & Q1 & Q2).
  destruct (RescalePair d d2) as [rd rd2]; cbn [fst snd] in *.
  rewrite <- Q1, <- Q2. unfold toQ. rewrite E1, E2.
  symmetry. apply Qcompare_scaled, pow10_pos.
Qed.

Lemma GreaterThan_toQ (d d2 : Decimal) :
  GreaterThan d d2 = true <-> (toQ d2 < toQ d)%Q.
Proof.
  unfold GreaterThan. rewrite Cmp_toQ.
  destruct (toQ d ?= toQ d2)%Q eqn:C.
  - apply Qeq_alt in C. split; [discriminate|]. rewrite C. intros H.
    exfalso. exact (Qlt_irrefl _ H).
  - apply Qlt_alt in C. split; [discriminate|]. intros H.
    exfalso. exact (Qlt_irrefl _ (Qlt_trans _ _ _ C H)).
  - apply Qgt_alt in C. split; [intros _; exact C | reflexivity].
Qed.

End decimal_facts.

(** ** Division rounds half away from zero *)

Module rounding_facts.
Import decimal decimal_facts spec.

Lemma round_nonneg (A B : Z) :
  0 <= A -> 0 < B ->
  (2 * A + B) / (2 * B) = if 2 * (A mod B) <? B then A / B else A / B + 1.
Proof.
  intros HA HB.
  pose proof (Z.div_mod A B ltac:(lia)) as E.
  pose proof (Z.mod_pos_bound A B HB) as Hr.
  destruct (Z.ltb_spec (2 * (A mod B)) B) as [L|G]; symmetry.
  - apply (Z.div_unique_pos _ _ _ (2 * (A mod B) + B)); lia.
  - apply (Z.div_unique_pos _ _ _ (2 * (A mod B) - B)); lia.
Qed.

(** The integer [DivRound] computes from the truncated quotient and its
    remainder is the quotient rounded half away from zero. *)
Lemma quot_round (aa bb : Z) :
  bb <> 0 ->
  (match 2 * Z.abs (Z.rem aa bb) ?= Z.abs bb with
   | Lt => Z.quot aa bb
   | _ => if Z.sgn aa * Z.sgn bb <? 0 then Z.quot aa bb - 1 else Z.quot aa bb + 1
   end) = Z.sgn aa * Z.sgn bb * ((2 * Z.abs aa + Z.abs bb) / (2 * Z.abs bb)).
Proof.
  intros Hbb.
  assert (Hq : Z.quot aa bb = Z.sgn aa * Z.sgn bb * (Z.abs aa / Z.abs bb)).
  { destruct aa as [|a|a], bb as [|b|b]; try lia; cbv [Z.sgn Z.abs];
      repeat match goal with
        | |- context [Z.neg ?p] => change (Z.neg p) with (- Z.pos p)
        end;
      rewrite ?Z.quot_opp_opp, ?Z.quot_opp_l, ?Z.quot_opp_r by lia;
      rewrite ?Z.quot_div_nonneg by lia; rewrite ?Z.div_0_l by lia; lia. }
  assert (Hr : Z.abs (Z.rem aa bb) = Z.abs aa mod Z.abs bb).
  { rewrite <- Z.rem_abs by assumption. apply Z.rem_mod_nonneg; lia. }
  rewrite round_nonneg by lia. rewrite Hr, Hq.
  set (q := Z.abs aa / Z.abs bb). set (r := Z.abs aa mod Z.abs bb).
  assert (Hr0 : Z.abs aa = 0 -> r = 0).
  { intros E. unfold r. rewrite E. apply Z.mod_0_l. lia. }
  pose proof (Z.mod_pos_bound (Z.abs aa) (Z.abs bb) ltac:(lia)) as Hrb. fold r in Hrb.
  destruct (Z.compare_spec (2 * r) (Z.abs bb)) as [E|L|G];
    destruct (Z.ltb_spec (2 * r) (Z.abs bb)); try lia;
    destruct (Z.ltb_spec (Z.sgn aa * Z.sgn bb) 0); destruct aa, bb; cbn in *; lia.
Qed.

Lemma Qnum_sgn_comp (x y : Q) : (x == y)%Q -> Z.sgn (Qnum x) = Z.sgn (Qnum y).
Proof.
  unfold Qeq. destruct x as [n d], y as [m e]; cbn [Qnum Qden]. intros H.
  destruct n, m; cbn in *; try reflexivity; lia.
Qed.

#[global] Instance round_half_away_comp : Proper (Qeq ==> eq) round_half_away.
Proof.
  intros x y E. unfold round_half_away.
  rewrite (Qnum_sgn_comp x y E). f_equal.
  apply Qfloor_comp. rewrite E. reflexivity.
Qed.

Lemma round_half_away_frac (n : Z) (d : positive) :
  round_half_away (n # d) = Z.sgn n * ((2 * Z.abs n + Z.pos d) / (2 * Z.pos d)).
Proof.
  unfold round_half_away, Qfloor, Qabs, Qplus; cbn [Qnum Qden].
  f_equal. f_equal; lia.
Qed.

Lemma round_half_away_div (aa bb : Z) :
  bb <> 0 ->
  round_half_away (inject_Z aa / inject_Z bb) =
  Z.sgn aa * Z.sgn bb * ((2 * Z.abs aa + Z.abs bb) / (2 * Z.abs bb)).
Proof.
  intros Hbb.
  assert (E : (inject_Z aa / inject_Z bb == (Z.sgn bb * aa) # Z.to_pos (Z.abs bb))%Q).
  { unfold Qeq, Qdiv, Qmult, Qinv, inject_Z; cbn [Qnum Qden].
    destruct bb as [|b|b]; try lia; cbv [Z.sgn Z.abs Z.to_pos Qnum Qden]; lia. }
  rewrite E, round_half_away_frac.
  rewrite Z2Pos.id by lia.
  destruct bb as [|b|b]; [lia| |].
  - change (Z.sgn (Z.pos b)) with 1. change (Z.abs (Z.pos b)) with (Z.pos b).
    rewrite !Z.mul_1_l, Z.mul_1_r. reflexivity.
  - change (Z.sgn (Z.neg b)) with (-1). change (Z.abs (Z.neg b)) with (Z.pos b).
    replace (-1 * aa) with (- aa) by lia.
    rewrite Z.sgn_opp, Z.abs_opp. lia.
Qed.

Lemma Add_same_exp (a b e : Z) :
  Add (mkDecimal a e) (mkDecimal b e) = mkDecimal (a + b) e.
Proof. unfold Add, RescalePair; cbn [exp value]. rewrite Z.eqb_refl. reflexivity. Qed.

Lemma Sub_same_exp (a b e : Z) :
  Sub (mkDecimal a e) (mkDecimal b e) = mkDecimal (a - b) e.
Proof. unfold Sub, RescalePair; cbn [exp value]. rewrite Z.eqb_refl. reflexivity. Qed.

(** [Cmp] compares the coefficients once both are scaled to the smaller
    exponent. *)
Lemma Cmp_scaled (d d2 : Decimal) :
  let m := Z.min (exp d) (exp d2) in
  Cmp d d2 = (value d * 10 ^ (exp d - m) ?= value d2 * 10 ^ (exp d2 - m)).
Proof.
  cbv zeta. unfold Cmp, RescalePair, rescale.
  destruct (Z.eqb_spec (exp d) (exp d2)) as [E|NE].
  - rewrite <- E, Z.min_id, Z.sub_diag, !Z.mul_1_r. reflexivity.
  - destruct (Z.eqb_spec (Z.min (exp d) (exp d2)) (exp d)) as [E1|NE1]; cbn [negb].
    + destruct (Z.eqb_spec (exp d2) (Z.min (exp d) (exp d2))) as [E2|NE2]; [lia|].
      destruct (Z.gtb_spec (Z.min (exp d) (exp d2)) (exp d2)); [lia|].
      cbn [value]. rewrite E1, Z.sub_diag, Z.mul_1_r.
      replace (Z.abs (exp d - exp d2)) with (exp d2 - exp d) by lia. reflexivity.
    + destruct (Z.eqb_spec (exp d) (Z.min (exp d) (exp d2))) as [E2|NE2]; [lia|].
      destruct (Z.gtb_spec (Z.min (exp d) (exp d2)) (exp d)); [lia|].
      cbn [value].
      replace (Z.min (exp d) (exp d2)) with (exp d2) by lia.
      rewrite Z.sub_diag, Z.mul_1_r.
      replace (Z.abs (exp d2 - exp d)) with (exp d - exp d2) by lia. reflexivity.
Qed.

(** The number [QuoRem] divides: the quotient of the two coefficients it
    builds is the quotient of the decimals, scaled by the precision. *)
Lemma toQ_quotient_scaled (d d2 : Decimal) (prec : Z) :
  value d2 <> 0 ->
  let e := exp d - exp d2 + prec in
  (toQ d / toQ d2 * ten ^ prec ==
   if e <? 0 then inject_Z (value d) / inject_Z (value d2 * 10 ^ (- e))
   else inject_Z (value d * 10 ^ e) / inject_Z (value d2))%Q.
Proof.
  intros Hb e. unfold toQ.
  assert (Hb' : ~ (inject_Z (value d2) == 0)%Q).
  { intros E. apply Hb. apply (inject_Z_injective _ 0). exact E. }
  pose proof (pow10_nonzero (exp d2)) as H2.
  pose proof (pow10_nonzero prec) as HP.
  destruct (Z.ltb_spec e 0) as [L|G].
  - rewrite inject_Z_mult, pow10_inject by lia.
    pose proof (pow10_nonzero (- e)) as HE.
    assert (ten ^ exp d2 == ten ^ exp d * ten ^ prec * ten ^ (- e))%Q as ->.
    { rewrite <- !pow10_add. replace (exp d + prec + - e) with (exp d2) by lia.
      reflexivity. }
    pose proof (pow10_nonzero (exp d)) as H1.
    field. repeat split; assumption.
  - rewrite inject_Z_mult, pow10_inject by lia.
    assert (ten ^ e == ten ^ exp d * / ten ^ exp d2 * ten ^ prec)%Q as ->.
    { rewrite <- Qpower_opp, <- !pow10_add.
      replace (exp d + - exp d2 + prec) with e by lia. reflexivity. }
    field. repeat split; assumption.
Qed.

(** [DivRound] on a divisor that is not zero, the difference of the
    scales fitting an [int32]: the quotient, rounded half away from zero to
    [precision] fractional digits. *)
Lemma DivRound_spec (d d2 : Decimal) (prec : Z) :
  value d2 <> 0 ->
  int32 (exp d - exp d2 + prec) ->
  DivRound d d2 prec =
  Returned (mkDecimal (round_half_away (toQ d / toQ d2 * ten ^ prec)) (- prec)).
Proof.
  intros Hb Hfit.
  rewrite (toQ_quotient_scaled d d2 prec Hb). cbv zeta.
  unfold DivRound, QuoRem.
  destruct (Z.eqb_spec (value d2) 0) as [|_]; [contradiction|].
  replace (exp d - exp d2 - - prec) with (exp d - exp d2 + prec) by lia.
  apply int32_check in Hfit. rewrite Hfit. clear Hfit.
  set (e := exp d - exp d2 + prec).
  destruct (Z.ltb_spec e 0) as [L|G]; cbn [mbind exec_bind].
  - pose proof (pow10_Zpos (- e) ltac:(lia)) as Hp.
    rewrite round_half_away_div by lia.
    rewrite <- quot_round by lia.
    rewrite Cmp_scaled; cbn [value exp Abs].
    replace (Z.min (exp d + prec) (exp d2)) with (exp d + prec) by lia.
    replace (exp d2 - (exp d + prec)) with (- e) by lia.
    rewrite Z.sub_diag, Z.mul_1_r.
    rewrite (Z.mul_comm (Z.abs _) 2), Z.abs_mul, (Z.abs_eq (10 ^ (- e))) by lia.
    rewrite (Z.sgn_mul (value d2)), (Z.sgn_pos (10 ^ (- e))), Z.mul_1_r by lia.
    destruct (_ ?= _); try reflexivity;
      destruct (_ <? 0); unfold New;
      rewrite ?Add_same_exp, ?Sub_same_exp; reflexivity.
  - pose proof (pow10_Zpos e ltac:(lia)) as Hp.
    rewrite round_half_away_div by lia.
    rewrite <- quot_round by lia.
    rewrite Cmp_scaled; cbn [value exp Abs].
    replace (- prec + exp d2 + prec) with (exp d2) by lia.
    rewrite Z.min_id, Z.sub_diag, !Z.mul_1_r.
    rewrite (Z.mul_comm (Z.abs _) 2).
    rewrite (Z.sgn_mul (value d)), (Z.sgn_pos (10 ^ e)), Z.mul_1_r by lia.
    destruct (_ ?= _); try reflexivity;
      destruct (_ <? 0); unfold New;
      rewrite ?Add_same_exp, ?Sub_same_exp; reflexivity.
Qed.

Lemma DivRound_zero (d d2 : Decimal) (prec : Z) :
  value d2 = 0 -> DivRound d d2 prec = Panicked DecimalDivisionByZero.
Proof.
  intros E. unfold DivRound, QuoRem. rewrite E. reflexivity.
Qed.

(** [DivRound] on a divisor that is not zero, the difference of the scales
    not fitting an [int32]: the overflow of [QuoRem]. *)
Lemma DivRound_overflow (d d2 : Decimal) (prec : Z) :
  value d2 <> 0 ->
  ~ int32 (exp d - exp d2 + prec) ->
  DivRound d d2 prec = Panicked QuoRemOverflow.
Proof.
  intros Hb Hfit. unfold DivRound, QuoRem.
  destruct (Z.eqb_spec (value d2) 0) as [|_]; [contradiction|].
  replace (exp d - exp d2 - - prec) with (exp d - exp d2 + prec) by lia.
  destruct ((exp d - exp d2 + prec >? MaxInt32) || (exp d - exp d2 + prec <? MinInt32))
    eqn:C; [reflexivity|].
  apply int32_check in C. contradiction.
Qed.

End rounding_facts.

(** ** Printing and parsing the amount in hastings *)

Module currency_facts.
Import decimal types spec decimal_facts rounding_facts.

Lemma rescale_down (d : Decimal) (e : Z) :
  e < exp d -> rescale d e = mkDecimal (value d * 10 ^ (exp d - e)) e.
Proof.
  intros H. unfold rescale.
  destruct (Z.eqb_spec (exp d) e); [lia|].
  destruct (Z.gtb_spec e (exp d)); [lia|].
  replace (Z.abs (e - exp d)) with (exp d - e) by lia. reflexivity.
Qed.

(** An integer without fractional digits is rounded to itself. *)
Lemma Round_integer (d : Decimal) :
  0 <= exp d -> Round d 0 = mkDecimal (value d * 10 ^ exp d) 0.
Proof.
  intros He. unfold Round. change (- 0 - 1) with (-1). change (- 0) with 0.
  destruct (Z.eqb_spec (exp d) 0) as [E|NE].
  - destruct d as [v e]; cbn [exp value] in *. subst e.
    rewrite Z.pow_0_r, Z.mul_1_r. reflexivity.
  - rewrite exp_rescale, rescale_down by lia. cbn [value].
    replace (exp d - -1) with (exp d + 1) by lia.
    rewrite Z.pow_add_r, Z.pow_1_r by lia.
    set (V := value d * 10 ^ exp d).
    replace (value d * (10 ^ exp d * 10)) with (V * 10) by (unfold V; lia).
    f_equal.
    destruct (Z.ltb_spec (V * 10) 0) as [L|G].
    + assert ((V * 10 - 5) / 10 = V - 1) as ->
        by (symmetry; apply (Z.div_unique_pos _ _ _ 5); lia).
      assert ((V * 10 - 5) mod 10 = 5) as ->
        by (symmetry; apply (Z.mod_unique_pos _ _ (V - 1)); lia).
      destruct (Z.ltb_spec (V - 1) 0); [cbn; lia | lia].
    + assert ((V * 10 + 5) / 10 = V) as ->
        by (symmetry; apply (Z.div_unique_pos _ _ _ 5); lia).
      destruct (Z.ltb_spec V 0); [lia | reflexivity].
Qed.

Lemma String_integer (v : Z) : String (mkDecimal v 0) = bigint_String v.
Proof. reflexivity. Qed.

(** A numeral that starts with a digit has no sign. *)
Lemma string_of_uint_unsigned (u : Decimal.uint) :
  u <> Decimal.Nil ->
  exists a s, NilZero.string_of_uint u = String.String a s /\
              Ascii.eqb a "-" = false /\ Ascii.eqb a "+" = false.
Proof.
  intros Hu. destruct u; try contradiction; cbn; eauto.
Qed.

(** Parsing the numeral of a number gives the number back. *)
Lemma SetString_String (z : Z) : bigint_SetString (bigint_String z) = Some z.
Proof.
  unfold bigint_String. destruct z as [|p|p]; cbn [Z.to_int NilZero.string_of_int].
  - reflexivity.
  - destruct (string_of_uint_unsigned (Pos.to_uint p) (DecimalPos.Unsigned.to_uint_nonnil p))
      as (a & s & E & Hm & Hp).
    unfold bigint_SetString. rewrite E, Hm, Hp, <- E.
    rewrite NilZero.usu by apply DecimalPos.Unsigned.to_uint_nonnil.
    cbn [option_map]. unfold Z.of_uint. rewrite DecimalPos.Unsigned.of_to. reflexivity.
  - unfold bigint_SetString.
    change (Ascii.eqb "-" "-") with true. cbv iota.
    rewrite NilZero.usu by apply DecimalPos.Unsigned.to_uint_nonnil.
    cbn [option_map]. unfold Z.of_uint. rewrite DecimalPos.Unsigned.of_to. reflexivity.
Qed.

Lemma BitLen_gt (i : Z) : 0 <= i -> (BitLen i >? 128) = (2 ^ 128 <=? i).
Proof.
  intros Hrng. unfold BitLen.
  destruct (Z.eqb_spec i 0) as [->|NZ]; [reflexivity|].
  pose proof (Z.log2_le_pow2 i 128 ltac:(lia)) as H.
  destruct (Z.gtb_spec (Z.log2 i + 1) 128), (Z.leb_spec (2 ^ 128) i); lia.
Qed.

Lemma Big_of_Big (i : Z) : 0 <= i < 2 ^ 128 -> Big (of_Big i) = i.
Proof.
  intros Hrng. unfold Big, of_Big; cbn [Lo Hi].
  rewrite Z.shiftr_div_pow2 by lia.
  rewrite (Z.mod_small (i / 2 ^ 64)).
  - pose proof (Z.div_mod i (2 ^ 64) ltac:(lia)). lia.
  - split; [apply Z.div_pos; lia|].
    apply Z.div_lt_upper_bound; [lia|]. change (2 ^ 64 * 2 ^ 64) with (2 ^ 128). lia.
Qed.

Lemma Big_range (i : Z) : 0 <= Big (of_Big i) < 2 ^ 128.
Proof.
  unfold Big, of_Big; cbn [Lo Hi].
  pose proof (Z.mod_pos_bound i (2 ^ 64) ltac:(lia)).
  pose proof (Z.mod_pos_bound (Z.shiftr i 64) (2 ^ 64) ltac:(lia)).
  change (2 ^ 128) with (2 ^ 64 * 2 ^ 64). nia.
Qed.

(** What [ParseCurrency] makes of the numeral of an integer. *)
Lemma ParseCurrency_String (z : Z) :
  ParseCurrency (bigint_String z) =
  if z <? 0 then (ZeroCurrency, Some (Errorf "value cannot be negative"))
  else if 2 ^ 128 <=? z
       then (ZeroCurrency, Some (Errorf "value overflows Currency representation"))
       else (of_Big z, None).
Proof.
  unfold ParseCurrency, parseExactCurrency. rewrite SetString_String.
  destruct (Z.ltb_spec z 0); [reflexivity|].
  rewrite BitLen_gt by assumption. reflexivity.
Qed.

(** [Div64] by a divisor that is not zero divides the number, rounding
    down. *)
Lemma Div64_spec (c : Currency) (v : Z) :
  0 <= Big c < 2 ^ 128 -> 0 < v ->
  exists c', Div64 c v = Returned c' /\ Big c' = Big c / v /\ 0 <= Big c' < 2 ^ 128.
Proof.
  intros Hc Hv. unfold Div64.
  destruct (Z.eqb_spec v 0); [lia|].
  eexists; split; [reflexivity|].
  assert (0 <= Big c / v < 2 ^ 128).
  { split; [apply Z.div_pos; lia|].
    apply Z.div_lt_upper_bound; [lia|]. nia. }
  rewrite Big_of_Big by assumption. auto.
Qed.

End currency_facts.

(** ** The averager *)

Module rate_facts.
Import decimal spec decimal_facts rounding_facts rate.

Section Averager.
Context {float64 : Type} (NewFromFloat : float64 -> Decimal).

Abbreviation getExchangeRate := (rate.getExchangeRate NewFromFloat).
Abbreviation Update := (rate.Update NewFromFloat).
Abbreviation Updates := (rate.Updates NewFromFloat).

Lemma window_value : window = 172800000000000.
Proof. reflexivity. Qed.

(** Linear arithmetic that knows the length of the window. *)
Ltac window_lia := pose proof window_value; lia.

(** The sum of [Update] is the sum of the samples. *)
Lemma toQ_sum (l : list Decimal) (acc : Decimal) :
  (toQ (foldl Add acc l) == toQ acc + Qsum (map toQ l))%Q.
Proof.
  revert acc. induction l as [|x l IH]; intros acc; cbn [foldl map Qsum foldr].
  - ring.
  - rewrite IH, toQ_Add. fold (Qsum (map toQ l)). ring.
Qed.

Lemma toQ_Zero : (toQ Zero == 0)%Q.
Proof. reflexivity. Qed.

(** An exported option leaves the buffer and the average alone. *)
Lemma exported_keeps (opt : Option) (a : Averager) :
  exported opt -> rates (opt a) = rates a /\ average (opt a) = average a.
Proof. intros []; split; reflexivity. Qed.

Lemma options_keep (opts : list Option) (a : Averager) :
  Forall exported opts ->
  rates (foldl (fun a opt => opt a) a opts) = rates a /\
  average (foldl (fun a opt => opt a) a opts) = average a.
Proof.
  intros H. revert a. induction H as [|opt opts Hopt _ IH]; intros a; cbn [foldl].
  - split; reflexivity.
  - destruct (IH (opt a)) as [-> ->]. apply exported_keeps, Hopt.
Qed.

(** A new averager has no sample, and the zero value for its average. *)
Lemma New_fresh (opts : list Option) :
  Forall exported opts -> rates (New opts) = [] /\ average (New opts) = zero_value.
Proof. intros H. unfold New. exact (options_keep opts _ H). Qed.

(** Dividing the sum of a buffer by its length: the rounded mean, or a
    panic when the buffer is empty. *)
Lemma Div_mean (l : list Decimal) :
  l <> [] ->
  int32 (mean_scale l) ->
  Div (foldl Add Zero l) (NewFromInt (Z.of_nat (length l))) = Returned (rounded_mean l).
Proof.
  intros Hl Hfit. unfold Div. rewrite DivRound_spec.
  - unfold rounded_mean, DivisionPrecision. do 2 f_equal.
    apply round_half_away_comp. unfold mean.
    rewrite toQ_sum, toQ_Zero.
    assert (toQ (NewFromInt (Z.of_nat (length l))) == inject_Z (Z.of_nat (length l)))%Q
      as -> by (unfold toQ, NewFromInt; cbn [value exp]; cbn [Qpower]; ring).
    rewrite Qplus_0_l. reflexivity.
  - cbn [NewFromInt value]. destruct l; [contradiction | cbn [length]; lia].
  - cbn [NewFromInt exp]. rewrite Z.sub_0_r. exact Hfit.
Qed.

Lemma Div_mean_overflow (l : list Decimal) :
  l <> [] ->
  ~ int32 (mean_scale l) ->
  Div (foldl Add Zero l) (NewFromInt (Z.of_nat (length l))) = Panicked QuoRemOverflow.
Proof.
  intros Hl Hfit. unfold Div. apply DivRound_overflow.
  - cbn [NewFromInt value]. destruct l; [contradiction | cbn [length]; lia].
  - cbn [NewFromInt exp]. rewrite Z.sub_0_r. exact Hfit.
Qed.

(** The sum of a buffer has the least of the exponents of its samples and
    of [Zero]. *)
Lemma exp_Add (d d2 : Decimal) : exp (Add d d2) = Z.min (exp d) (exp d2).
Proof.
  unfold Add. pose proof (RescalePair_spec d d2) as (E1 & _).
  destruct (RescalePair d d2) as [rd rd2]; cbn [fst snd] in *. exact E1.
Qed.

Lemma exp_sum (l : list Decimal) (acc : Decimal) :
  Forall representable l ->
  Z.min MinInt32 (exp acc) <= exp (foldl Add acc l) <= exp acc.
Proof.
  intros H. revert acc. induction H as [|x l Hx _ IH]; intros acc; cbn [foldl].
  - lia.
  - specialize (IH (Add acc x)). rewrite exp_Add in IH.
    unfold representable, int32 in Hx. lia.
Qed.

(** The samples of a buffer being representable, the division of their sum
    by their number does not overflow. *)
Lemma mean_scale_fits (l : list Decimal) :
  Forall representable l -> int32 (mean_scale l).
Proof.
  intros H. pose proof (exp_sum l Zero H) as E.
  unfold mean_scale, int32, DivisionPrecision.
  change (exp Zero) with 1 in E. unfold MinInt32, MaxInt32 in *. lia.
Qed.

Lemma Div_empty :
  Div (foldl Add Zero []) (NewFromInt (Z.of_nat (length (@nil Decimal)))) =
  Panicked DecimalDivisionByZero.
Proof. reflexivity. Qed.

(** Every call of [Update] ends in one of the five ways. *)
Lemma Update_ends (ra : Averager) (sc : Quote) :
  Update_outcome NewFromFloat ra sc (Update ra sc).
Proof.
  unfold rate.Update.
  destruct (getExchangeRate (currency ra) sc) as [x [cause|]] eqn:G.
  - eapply Update_unavailable, G.
  - destruct (Z.eqb_spec (frequency ra) 0) as [E|NE].
    + eapply Update_no_interval; eauto.
    + change (48 * time.Hour) with window.
      change (if Z.of_nat (length (rates ra ++ [x])) >? Z.quot window (frequency ra)
              then drop 1 (rates ra ++ [x]) else rates ra ++ [x])
        with (fifo_push (Z.quot window (frequency ra)) (rates ra) x).
      destruct (fifo_push (Z.quot window (frequency ra)) (rates ra) x)
        as [|y buffer] eqn:B.
      * rewrite Div_empty. eapply Update_no_sample; eauto.
      * destruct (int32_dec (mean_scale (y :: buffer))) as [F|F].
        -- rewrite Div_mean by (discriminate || assumption). cbn [mbind exec_bind].
           eapply Update_refreshed; eauto.
        -- rewrite Div_mean_overflow by (discriminate || assumption).
           eapply Update_overflow; eauto.
Qed.

(** [getExchangeRate] fails when the service fails or does not quote the
    currency, and only then. *)
Lemma getExchangeRate_fails (cur : string) (sc : Quote) :
  (exists r e, getExchangeRate cur sc = (r, Some e)) <->
  (failure sc <> None \/ quoted sc !! cur = None).
Proof.
  unfold rate.getExchangeRate.
  destruct (failure sc) as [err|]; [|destruct (quoted sc !! cur) as [x|]].
  - split; [left; discriminate | eauto].
  - split; [intros (r & e & [=]) | intros [H|H]; [contradiction|discriminate]].
  - split; [right; reflexivity | eauto].
Qed.

(** Pushing onto the last [cap] samples of a history gives the last [cap]
    samples of the longer history. *)
Lemma fifo_push_window (cap : Z) (hist : list Decimal) (x : Decimal) :
  1 <= cap ->
  fifo_push cap (drop (length hist - Z.to_nat cap) hist) x =
  drop (length (hist ++ [x]) - Z.to_nat cap) (hist ++ [x]).
Proof.
  intros Hcap. unfold fifo_push.
  rewrite <- drop_app_le by lia.
  rewrite length_drop, !length_app. cbn [length].
  destruct (Z.gtb_spec (Z.of_nat (length hist + 1 - (length hist - Z.to_nat cap))) cap)
    as [G|L].
  - rewrite drop_drop. f_equal. lia.
  - f_equal. lia.
Qed.

(** A run of successful refreshes keeps the last [cap] samples. *)
Lemma Updates_window (scs : list Quote) :
  forall (ra : Averager) (hist : list Decimal) ra' ress,
    frequency ra <> 0 ->
    1 <= Z.quot window (frequency ra) ->
    rates ra = drop (length hist - Z.to_nat (Z.quot window (frequency ra))) hist ->
    Updates ra scs = Returned (ra', ress) ->
    Forall succeeded ress ->
    frequency ra' = frequency ra /\
    rates ra' =
      drop (length (hist ++ ress.*1) - Z.to_nat (Z.quot window (frequency ra)))
        (hist ++ ress.*1).
Proof.
  induction scs as [|sc scs IH]; intros ra hist ra' ress Hf Hcap Hr Hrun Hok;
    cbn [rate.Updates] in Hrun.
  - injection Hrun as <- <-. cbn [fmap list_fmap]. rewrite app_nil_r. auto.
  - destruct (Update_ends ra sc) as [r cause G|x G F|x G F B|x buffer G F B NE O|x buffer G F B NE O];
      cbn [mbind exec_bind] in Hrun; try discriminate.
    + destruct (Updates ra scs) as [[ra'' ress']|]; cbn in Hrun; [|discriminate].
      injection Hrun as <- <-. inversion Hok as [|? ? Hhd]. discriminate Hhd.
    + match type of Hrun with context [rate.Updates _ ?a scs] => set (ra1 := a) in * end.
      destruct (Updates ra1 scs) as [[ra'' ress']|] eqn:Hrest; cbn in Hrun; [|discriminate].
      injection Hrun as <- <-. apply Forall_cons in Hok as [_ Hok'].
      destruct (IH ra1 (hist ++ [x]) ra'' ress') as [E1 E2]; auto.
      * unfold ra1; cbn [frequency rates]. rewrite <- B, Hr.
        apply fifo_push_window, Hcap.
      * split; [exact E1|]. rewrite E2. unfold ra1; cbn [fmap list_fmap fst frequency].
        rewrite <- !app_assoc. reflexivity.
Qed.

(** A refresh does not touch the configuration. *)
Lemma Updates_keep_config (scs : list Quote) :
  forall (ra : Averager) ra' ress,
    Updates ra scs = Returned (ra', ress) ->
    frequency ra' = frequency ra /\ currency ra' = currency ra.
Proof.
  induction scs as [|sc scs IH]; intros ra ra' ress Hrun; cbn [rate.Updates] in Hrun.
  - injection Hrun as <- <-. auto.
  - destruct (Update_ends ra sc) as [r cause G|x G F|x G F B|x buffer G F B NE O|x buffer G F B NE O];
      cbn [mbind exec_bind] in Hrun; try discriminate.
    + destruct (Updates ra scs) as [[ra'' ress']|] eqn:Hrest; cbn in Hrun; [|discriminate].
      injection Hrun as <- <-. eapply IH, Hrest.
    + match type of Hrun with context [rate.Updates _ ?a scs] => set (ra1 := a) in * end.
      destruct (Updates ra1 scs) as [[ra'' ress']|] eqn:Hrest; cbn in Hrun; [|discriminate].
      injection Hrun as <- <-. destruct (IH ra1 _ _ Hrest) as [-> ->]. auto.
Qed.

(** When the interval is longer than the window, the buffer stays empty:
    a refresh either fails or panics. *)
Lemma Updates_no_sample (scs : list Quote) :
  forall (ra : Averager) ra' ress,
    window < frequency ra -> rates ra = [] ->
    Updates ra scs = Returned (ra', ress) ->
    ra' = ra /\ Forall (fun res => ~ succeeded res) ress.
Proof.
  induction scs as [|sc scs IH]; intros ra ra' ress Hf Hr Hrun;
    cbn [rate.Updates] in Hrun.
  - injection Hrun as <- <-. auto.
  - destruct (Update_ends ra sc) as [r cause G|x G F|x G F B|x buffer G F B NE O|x buffer G F B NE O];
      cbn [mbind exec_bind] in Hrun; try discriminate.
    + destruct (Updates ra scs) as [[ra'' ress']|] eqn:Hrest; cbn in Hrun; [|discriminate].
      injection Hrun as <- <-.
      destruct (IH ra ra'' ress' Hf Hr Hrest) as [-> H]. split; [reflexivity|].
      constructor; [discriminate | exact H].
    + exfalso. apply NE. rewrite <- B, Hr. unfold fifo_push. cbn [app length].
      rewrite Z.quot_small by window_lia. reflexivity.
Qed.

(** C1: for every sequence of N successful refreshes of a new averager with
    a sample interval [i] (a positive duration) and the window of 48 hours,
    the buffer is never longer than [floor (window / i)] and holds the most
    recent [floor (window / i)] samples in the order they arrived: all of
    them until that capacity is reached, exactly that many from then on. *)
Theorem Update_keeps_the_most_recent_samples
    (opts : list Option) (scs : list Quote) ra' ress :
  Forall exported opts ->
  0 < frequency (New opts) ->
  Updates (New opts) scs = Returned (ra', ress) ->
  Forall succeeded ress ->
  let cap := capacity (frequency (New opts)) in
  Z.of_nat (length (rates ra')) <= cap /\
  rates ra' = drop (length ress - Z.to_nat cap) ress.*1 /\
  (cap <= Z.of_nat (length ress) -> Z.of_nat (length (rates ra')) = cap).
Proof.
  intros Hopts Hf Hrun Hok cap.
  destruct (New_fresh opts Hopts) as [Hfresh _].
  assert (Hq : Z.quot window (frequency (New opts)) = cap).
  { unfold cap, capacity. apply Z.quot_div_nonneg; [window_lia | exact Hf]. }
  assert (Hcap0 : 0 <= cap).
  { unfold cap, capacity. apply Z.div_pos; [window_lia | exact Hf]. }
  destruct (Z.le_gt_cases 1 cap) as [Hcap|Hcap].
  - assert (E := Updates_window scs (New opts) [] ra' ress ltac:(lia)
                  ltac:(rewrite Hq; exact Hcap) ltac:(rewrite Hfresh; reflexivity)
                  Hrun Hok).
    apply proj2 in E. rewrite app_nil_l, Hq in E. rewrite E, length_drop, length_fmap.
    repeat split; lia.
  - assert (window < frequency (New opts)) as Hlong.
    { unfold cap, capacity in Hcap.
      destruct (Z.lt_ge_cases window (frequency (New opts))) as [|Hge]; [assumption|].
      exfalso. pose proof (Z.div_le_mono _ _ (frequency (New opts)) Hf Hge) as H.
      rewrite Z.div_same in H by lia. lia. }
    destruct (Updates_no_sample scs (New opts) ra' ress Hlong Hfresh Hrun) as [-> Hno].
    destruct ress as [|res ress].
    + rewrite Hfresh. cbn. repeat split; lia.
    + inversion Hok; inversion Hno; subst. contradiction.
Qed.

(** A buffer of representable samples stays one when it takes a
    representable sample. *)
Lemma fifo_push_representable (cap : Z) (buffer : list Decimal) (x : Decimal) :
  Forall representable buffer -> representable x ->
  Forall representable (fifo_push cap buffer x).
Proof.
  intros Hb Hx. unfold fifo_push.
  assert (H : Forall representable (buffer ++ [x])).
  { apply Forall_app. split; [exact Hb | constructor; [exact Hx | constructor]]. }
  destruct (_ >? _); [apply Forall_drop|]; exact H.
Qed.

(** In the other direction: with an interval of at most the window, a
    sequence of quotes that all carry the currency is a sequence of
    successful refreshes. *)
Lemma Updates_succeed (scs : list Quote) :
  forall (ra : Averager),
    0 < frequency ra <= window ->
    Forall representable (rates ra) ->
    Forall (fun sc => exists x, getExchangeRate (currency ra) sc = (x, None) /\
                                representable x) scs ->
    exists ra' ress, Updates ra scs = Returned (ra', ress) /\ Forall succeeded ress.
Proof.
  induction scs as [|sc scs IH]; intros ra Hf Hrep Hq; cbn [rate.Updates].
  - eexists _, _. split; [reflexivity | constructor].
  - inversion Hq as [|? ? (x & Hx & Hxr) Hq']; subst.
    assert (Hcap : 1 <= Z.quot window (frequency ra)).
    { rewrite Z.quot_div_nonneg by lia.
      pose proof (Z.div_le_mono _ _ (frequency ra) ltac:(lia) (proj2 Hf)) as H.
      rewrite Z.div_same in H by lia. exact H. }
    destruct (Update_ends ra sc) as [r cause G|y G F|y G F B|y buffer G F B NE O|y buffer G F B NE O];
      try congruence; try lia.
    + exfalso. unfold fifo_push in B.
      destruct (rates ra) as [|z l]; cbn [app length] in B.
      * destruct (Z.gtb_spec (Z.of_nat 1) (Z.quot window (frequency ra)));
          [lia | discriminate].
      * destruct (_ >? _); [destruct l|]; discriminate.
    + exfalso. apply O, mean_scale_fits. subst buffer.
      apply fifo_push_representable; [exact Hrep|]. congruence.
    + cbn [mbind exec_bind].
      match goal with |- context [rate.Updates _ ?a scs] => set (ra1 := a) end.
      destruct (IH ra1) as (ra' & ress & -> & Hok); auto.
      { subst ra1 buffer. cbn [rates].
        apply fifo_push_representable; [exact Hrep|]. congruence. }
      eexists _, _. split; [reflexivity|]. constructor; [reflexivity | exact Hok].
Qed.

(** C2, as the code has it: after a successful refresh the cached average
    is the arithmetic mean of the samples then in the buffer rounded, half
    away from zero, to 16 fractional digits; a failed refresh leaves the
    averager, its buffer and its average as they were. *)
Theorem Update_caches_the_rounded_mean (ra : Averager) (sc : Quote) ra' res out :
  Update ra sc = Returned (ra', res, out) ->
  (succeeded res ->
     rates ra' <> [] /\
     average ra' = rounded_mean (rates ra') /\
     exp (average ra') = -16 /\
     value (average ra') = round_half_away (mean (rates ra') * inject_Z 10 ^ 16)) /\
  (~ succeeded res ->
     ra' = ra /\ rates ra' = rates ra /\ average ra' = average ra).
Proof.
  intros Hrun.
  destruct (Update_ends ra sc) as [r cause G|x G F|x G F B|x buffer G F B NE O|x buffer G F B NE O];
    try discriminate; injection Hrun as <- <- <-.
  - split; [intros H; discriminate H | auto].
  - split; [intros _; cbn; auto | intros H; exfalso; apply H; reflexivity].
Qed.

(** C7: the refresh returns an error exactly when the quote service fails
    or does not quote the configured currency; both causes reach the caller
    as the same kind of failure, and the averager, its buffer and its
    average are then as they were before the call. *)
Theorem Update_fails_when_quote_unavailable (ra : Averager) (sc : Quote) :
  ((failure sc <> None \/ quoted sc !! currency ra = None) <->
   exists ra' r e out, Update ra sc = Returned (ra', (r, Some e), out)) /\
  (forall ra' r e out,
     Update ra sc = Returned (ra', (r, Some e), out) ->
     QuoteUnavailable e /\
     ra' = ra /\ rates ra' = rates ra /\ average ra' = average ra).
Proof.
  split.
  - rewrite <- getExchangeRate_fails. split.
    + intros (r & e & G). unfold rate.Update. rewrite G. eauto.
    + intros (ra' & r & e & out & Hrun).
      destruct (Update_ends ra sc) as [r' cause G|x G F|x G F B|x buffer G F B NE O|x buffer G F B NE O];
        try discriminate; eauto.
  - intros ra' r e out Hrun.
    destruct (Update_ends ra sc) as [r' cause G|x G F|x G F B|x buffer G F B NE O|x buffer G F B NE O];
      try discriminate.
    injection Hrun as <- <- <- <-. unfold QuoteUnavailable. eauto.
Qed.

(** C9: an averager whose interval is longer than the window of 48 hours
    has capacity zero; its buffer is empty whenever a refresh starts, so a
    refresh whose quote arrives appends the sample, evicts it and divides by
    the length zero: it panics with the division by zero of the decimals.
    A refresh can only come back with a sample when the interval is at most
    48 hours. *)
Theorem Update_divides_by_zero_beyond_the_window
    (opts : list Option) (scs : list Quote) ra ress :
  Forall exported opts ->
  Updates (New opts) scs = Returned (ra, ress) ->
  (window < frequency ra ->
     capacity (frequency ra) = 0 /\
     Z.quot window (frequency ra) = 0 /\
     forall sc x,
       getExchangeRate (currency ra) sc = (x, None) ->
       fifo_push (Z.quot window (frequency ra)) (rates ra) x = [] /\
       Update ra sc = Panicked DecimalDivisionByZero) /\
  (forall sc ra' x out,
     Update ra sc = Returned (ra', (x, None), out) -> frequency ra <= window).
Proof.
  intros Hopts Hrun.
  destruct (New_fresh opts Hopts) as [Hfresh _].
  destruct (Updates_keep_config scs _ _ _ Hrun) as [Hfreq _].
  assert (Hra : window < frequency ra -> rates ra = []).
  { intros Hlong. rewrite Hfreq in Hlong.
    destruct (Updates_no_sample scs (New opts) ra ress Hlong Hfresh Hrun) as [-> _].
    exact Hfresh. }
  assert (Hpush : window < frequency ra ->
                  forall x, fifo_push (Z.quot window (frequency ra)) (rates ra) x = []).
  { intros Hlong x. rewrite (Hra Hlong). unfold fifo_push. cbn [app length].
    rewrite Z.quot_small by window_lia. reflexivity. }
  split.
  - intros Hlong. split; [|split].
    + unfold capacity. apply Z.div_small. window_lia.
    + apply Z.quot_small. window_lia.
    + intros sc x G. split; [apply Hpush, Hlong|].
      destruct (Update_ends ra sc) as [r cause G'|y G' F|y G' F B|y buffer G' F B NE O|y buffer G' F B NE O];
        try congruence.
      * exfalso. window_lia.
      * exfalso. apply NE. rewrite <- B. apply Hpush, Hlong.
      * exfalso. apply NE. rewrite <- B. apply Hpush, Hlong.
  - intros sc ra' x out Hup.
    destruct (Z.le_gt_cases (frequency ra) window) as [|Hlong]; [assumption|].
    exfalso.
    destruct (Update_ends ra sc) as [r cause G'|y G' F|y G' F B|y buffer G' F B NE O|y buffer G' F B NE O];
      try discriminate.
    apply NE. rewrite <- B. apply Hpush, Hlong.
Qed.

(** C10: on a new averager, and as long as no refresh has succeeded, [Rate]
    answers the zero value of the decimals, which is the number zero. *)
Theorem Rate_is_zero_before_the_first_refresh
    (opts : list Option) (scs : list Quote) ra ress :
  Forall exported opts ->
  Updates (New opts) scs = Returned (ra, ress) ->
  Forall (fun res => ~ succeeded res) ress ->
  Rate (New opts) = zero_value /\
  Rate ra = zero_value /\
  (toQ (Rate ra) == 0)%Q.
Proof.
  intros Hopts Hrun Hno.
  destruct (New_fresh opts Hopts) as [_ Hzero].
  assert (E : ra = New opts).
  { clear Hopts Hzero. revert ress Hrun Hno.
    generalize (New opts) as a. induction scs as [|sc scs IH]; intros a ress Hrun Hno;
      cbn [rate.Updates] in Hrun.
    - injection Hrun as <- <-. reflexivity.
    - destruct (Update_ends a sc) as [r cause G|x G F|x G F B|x buffer G F B NE O|x buffer G F B NE O];
        cbn [mbind exec_bind] in Hrun; try discriminate.
      + destruct (Updates a scs) as [[ra'' ress']|] eqn:Hrest; cbn in Hrun; [|discriminate].
        injection Hrun as <- <-. inversion Hno; subst. eapply IH; eauto.
      + match type of Hrun with context [rate.Updates _ ?a scs] => set (ra1 := a) in * end.
        destruct (Updates ra1 scs) as [[ra'' ress']|] eqn:Hrest; cbn in Hrun; [|discriminate].
        injection Hrun as <- <-. inversion Hno as [|? ? Hhd]; subst.
        exfalso. apply Hhd. reflexivity. }
  subst ra. unfold Rate. rewrite Hzero. repeat split; reflexivity.
Qed.

End Averager.

Import examples.

(** C1 on an averager that samples once a day: of the three samples it is
    given it keeps the last two. *)
Lemma Update_keeps_the_most_recent_samples_witness :
  let ra' := mkAverager zap.NewNop "usd" (24 * time.Hour) [milli 2; milli 3]
               (decimal.New 25000000000000 (-16)) in
  let ress := [(milli 1, None); (milli 2, None); (milli 3, None)] in
  let cap := capacity (frequency (New daily)) in
  Forall exported daily /\
  0 < frequency (New daily) /\
  rate.Updates numeral (New daily) [usd (milli 1); usd (milli 2); usd (milli 3)]
    = Returned (ra', ress) /\
  Forall succeeded ress /\
  Z.of_nat (length (rates ra')) <= cap /\
  rates ra' = drop (length ress - Z.to_nat cap) ress.*1 /\
  (cap <= Z.of_nat (length ress) -> Z.of_nat (length (rates ra')) = cap).
Proof.
  intros ra' ress cap.
  assert (H1 : Forall exported daily) by repeat constructor.
  assert (H2 : 0 < frequency (New daily)) by reflexivity.
  assert (H3 : rate.Updates numeral (New daily)
                 [usd (milli 1); usd (milli 2); usd (milli 3)] = Returned (ra', ress))
    by (vm_compute; reflexivity).
  assert (H4 : Forall succeeded ress) by (repeat constructor).
  refine (conj H1 (conj H2 (conj H3 (conj H4 _)))).
  exact (Update_keeps_the_most_recent_samples numeral daily _ ra' ress H1 H2 H3 H4).
Defined.

(** C2 on the first refresh of a new averager. *)
Lemma Update_caches_the_rounded_mean_witness :
  let ra' := mkAverager zap.NewNop "usd" (5 * time.Minute) [milli 4]
               (decimal.New 40000000000000 (-16)) in
  let res := (milli 4, @None error) in
  rate.Update numeral (New []) (usd (milli 4)) = Returned (ra', res, []) /\
  (succeeded res ->
     rates ra' <> [] /\
     average ra' = rounded_mean (rates ra') /\
     exp (average ra') = -16 /\
     value (average ra') = round_half_away (mean (rates ra') * inject_Z 10 ^ 16)) /\
  (~ succeeded res ->
     ra' = New [] /\ rates ra' = rates (New []) /\ average ra' = average (New [])).
Proof.
  intros ra' res.
  assert (H : rate.Update numeral (New []) (usd (milli 4)) = Returned (ra', res, []))
    by (vm_compute; reflexivity).
  refine (conj H _).
  exact (Update_caches_the_rounded_mean numeral (New []) (usd (milli 4)) ra' res [] H).
Defined.

(** C2 as it is stated fails: after the samples 0.001, 0.001 and 0.002 the
    cached average is 0.0013333333333333, which is not their mean, a third
    of 0.004. *)
Lemma Update_average_is_not_the_exact_mean :
  match rate.Updates numeral (New []) [usd (milli 1); usd (milli 1); usd (milli 2)] with
  | Returned (ra, ress) =>
      Forall succeeded ress /\
      rates ra = [milli 1; milli 1; milli 2] /\
      average ra = decimal.New 13333333333333 (-16) /\
      ~ (toQ (average ra) == mean (rates ra))%Q
  | Panicked _ => False
  end.
Proof.
  assert (E : rate.Updates numeral (New []) [usd (milli 1); usd (milli 1); usd (milli 2)]
              = Returned
                  (mkAverager zap.NewNop "usd" (5 * time.Minute)
                     [milli 1; milli 1; milli 2] (decimal.New 13333333333333 (-16)),
                   [(milli 1, None); (milli 1, None); (milli 2, None)]))
    by (vm_compute; reflexivity).
  rewrite E. split; [repeat constructor|]. split; [reflexivity|].
  split; [reflexivity|]. intros H. vm_compute in H. discriminate H.
Qed.

(** C7 on a service that cannot be reached. *)
Lemma Update_fails_when_quote_unavailable_witness :
  let e := Wrapf "failed to get exchange rate: %w" [] (Opaque "connection refused") in
  rate.Update numeral (New []) unreachable = Returned (New [], (Zero, Some e), []) /\
  QuoteUnavailable e /\
  New [] = New [] /\ rates (New []) = rates (New []) /\
  average (New []) = average (New []).
Proof.
  intros e.
  assert (H : rate.Update numeral (New []) unreachable
              = Returned (New [], (Zero, Some e), [])) by reflexivity.
  refine (conj H _).
  exact (proj2 (Update_fails_when_quote_unavailable numeral (New []) unreachable)
           (New []) Zero e [] H).
Defined.

(** C9 on an averager that samples once a week. *)
Lemma Update_divides_by_zero_beyond_the_window_witness :
  let ra := New weekly in
  let ress := [(Zero, Some (Wrapf "failed to get exchange rate: %w" []
                              (Opaque "connection refused")))] in
  Forall exported weekly /\
  rate.Updates numeral (New weekly) [unreachable] = Returned (ra, ress) /\
  window < frequency ra /\
  capacity (frequency ra) = 0 /\
  rate.Update numeral ra (usd (milli 4)) = Panicked DecimalDivisionByZero.
Proof.
  intros ra ress.
  assert (H1 : Forall exported weekly) by repeat constructor.
  assert (H2 : rate.Updates numeral (New weekly) [unreachable] = Returned (ra, ress))
    by (vm_compute; reflexivity).
  assert (H3 : window < frequency ra) by reflexivity.
  refine (conj H1 (conj H2 (conj H3 _))).
  destruct (proj1 (Update_divides_by_zero_beyond_the_window
                     numeral weekly [unreachable] ra ress H1 H2) H3)
    as (C & _ & U).
  exact (conj C (proj2 (U (usd (milli 4)) (milli 4) eq_refl))).
Defined.

(** C10 on an averager whose first two refreshes failed. *)
Lemma Rate_is_zero_before_the_first_refresh_witness :
  let failed := (Zero, Some (Wrapf "failed to get exchange rate: %w" []
                               (Opaque "connection refused"))) in
  Forall exported daily /\
  rate.Updates numeral (New daily) [unreachable; unreachable]
    = Returned (New daily, [failed; failed]) /\
  Forall (fun res => ~ succeeded res) [failed; failed] /\
  Rate (New daily) = zero_value /\
  Rate (New daily) = zero_value /\
  (toQ (Rate (New daily)) == 0)%Q.
Proof.
  intros failed.
  assert (H1 : Forall exported daily) by repeat constructor.
  assert (H2 : rate.Updates numeral (New daily) [unreachable; unreachable]
               = Returned (New daily, [failed; failed])) by (vm_compute; reflexivity).
  assert (H3 : Forall (fun res => ~ succeeded res) [failed; failed])
    by (repeat constructor; discriminate).
  refine (conj H1 (conj H2 (conj H3 _))).
  exact (Rate_is_zero_before_the_first_refresh numeral daily _ _ _ H1 H2 H3).
Defined.

End rate_facts.

(** ** The update round *)

Module hpind_facts.
Import decimal types spec decimal_facts rounding_facts currency_facts hpind.

Lemma called_app (evs evs' : list event) :
  called (evs ++ evs') = called evs ++ called evs'.
Proof.
  induction evs as [|[h s|e] evs IH]; cbn [app called]; [reflexivity| |assumption].
  rewrite IH. reflexivity.
Qed.

Lemma called_logs (es : list zap.Entry) : called (map Log es) = [].
Proof. induction es; [reflexivity | assumption]. Qed.

(** [convertToCurrency] on a rate that is not zero, the division not
    overflowing: the amount, unless it is negative or does not fit 128
    bits.  The multiplication by [10 ^ 24] never overflows: its exponents
    are -16 and 24. *)
Lemma convertToCurrency_amount (target rate : Decimal) :
  value rate <> 0 ->
  int32 (quotient_scale target rate) ->
  convertToCurrency target rate =
  if hastings target rate <? 0
  then Panicked (PanicError (Errorf "value cannot be negative"))
  else if 2 ^ 128 <=? hastings target rate
       then Panicked (PanicError (Errorf "value overflows Currency representation"))
       else Returned (of_Big (hastings target rate)).
Proof.
  intros Hr Hfit. unfold convertToCurrency, Div.
  rewrite DivRound_spec by assumption. cbn [mbind exec_bind].
  rewrite Mul_fits by (cbn [exp New]; unfold int32, DivisionPrecision; cbv; split; discriminate).
  cbn [mbind exec_bind]. unfold New; cbn [value exp].
  rewrite Round_integer by (cbn [exp]; unfold DivisionPrecision; lia).
  cbn [value exp]. rewrite String_integer, ParseCurrency_String.
  change (- DivisionPrecision + 24) with 8. rewrite Z.mul_1_r.
  change (ten ^ DivisionPrecision)%Q with (ten ^ 16)%Q.
  fold (hastings target rate).
  destruct (hastings target rate <? 0); [reflexivity|].
  destruct (2 ^ 128 <=? hastings target rate); reflexivity.
Qed.

Lemma convertToCurrency_zero_rate (target rate : Decimal) :
  value rate = 0 -> convertToCurrency target rate = Panicked DecimalDivisionByZero.
Proof.
  intros Hr. unfold convertToCurrency, Div. rewrite DivRound_zero by assumption.
  reflexivity.
Qed.

(** [convertToCurrency] on a rate that is not zero, the difference of the
    scales of target and rate not fitting an [int32]: the overflow of
    [QuoRem]. *)
Lemma convertToCurrency_overflow (target rate : Decimal) :
  value rate <> 0 ->
  ~ int32 (quotient_scale target rate) ->
  convertToCurrency target rate = Panicked QuoRemOverflow.
Proof.
  intros Hr Hfit. unfold convertToCurrency, Div.
  rewrite DivRound_overflow by assumption. reflexivity.
Qed.

(** [updateHosts] converts the three prices and then calls the hosts. *)
Lemma updateHosts_rounds (api : API) (hosts : list Host) (target : Prices)
    (rate : Decimal) (log : zap.Logger) :
  updateHosts api hosts target rate log =
  (s ← target_settings target rate;
   Returned (updateHosts_loop api (round_logger log rate s) s hosts)).
Proof.
  unfold updateHosts, target_settings.
  destruct (_ ← convertToCurrency (Storage target) rate; _) as [sp|]; [|reflexivity].
  cbn [mbind exec_bind].
  destruct (_ ← convertToCurrency (Ingress target) rate; _) as [ip|]; [|reflexivity].
  cbn [mbind exec_bind].
  destruct (_ ← convertToCurrency (Egress target) rate; _) as [ep|]; reflexivity.
Qed.

(** The loop over the hosts: it calls the hosts up to the first one that
    fails and returns the failure of that one. *)
Lemma updateHosts_loop_all (api : API) (log : zap.Logger) (s : Settings)
    (hosts : list Host) :
  Forall (fun h => api h s = None) hosts ->
  (updateHosts_loop api log s hosts).1 = None /\
  called (updateHosts_loop api log s hosts).2 = hosts.
Proof.
  induction 1 as [|h hosts Hh _ [IH1 IH2]]; cbn [updateHosts_loop].
  - split; reflexivity.
  - rewrite Hh. destruct (updateHosts_loop api log s hosts) as [res evs].
    cbn [fst snd] in *. split; [assumption|].
    cbn [called]. rewrite called_app, called_logs, IH2. reflexivity.
Qed.

Lemma updateHosts_loop_first (api : API) (log : zap.Logger) (s : Settings)
    (before after : list Host) (h : Host) (cause : error) :
  Forall (fun h => api h s = None) before ->
  api h s = Some cause ->
  (updateHosts_loop api log s (before ++ h :: after)).1 = Some (host_failure h cause) /\
  called (updateHosts_loop api log s (before ++ h :: after)).2 = before ++ [h].
Proof.
  intros Hb Hh. induction Hb as [|h0 before Hh0 _ [IH1 IH2]];
    cbn [app updateHosts_loop].
  - rewrite Hh. split; reflexivity.
  - rewrite Hh0. destruct (updateHosts_loop api log s (before ++ h :: after)) as [res evs].
    cbn [fst snd] in *. split; [assumption|].
    cbn [called]. rewrite called_app, called_logs, IH2. reflexivity.
Qed.

Lemma updateHosts_loop_None (api : API) (log : zap.Logger) (s : Settings)
    (hosts : list Host) :
  (updateHosts_loop api log s hosts).1 = None ->
  Forall (fun h => api h s = None) hosts.
Proof.
  induction hosts as [|h hosts IH]; cbn [updateHosts_loop]; [constructor|].
  destruct (api h s) as [cause|] eqn:Hh; [discriminate|].
  destruct (updateHosts_loop api log s hosts) as [res evs]. cbn [fst] in *.
  intros ->. constructor; auto.
Qed.

Lemma round_half_away_nonneg (x : Q) : (0 <= x)%Q -> 0 <= round_half_away x.
Proof.
  destruct x as [n d]. unfold Qle; cbn [Qnum Qden]. intros Hn.
  rewrite round_half_away_frac.
  assert (0 <= (2 * Z.abs n + Z.pos d) / (2 * Z.pos d)) by (apply Z.div_pos; lia).
  destruct n; cbv [Z.sgn]; lia.
Qed.

Lemma toQ_pos_value (d : Decimal) : (0 < toQ d)%Q -> value d <> 0.
Proof.
  intros H E. unfold toQ in H. rewrite E in H.
  assert (inject_Z 0 * ten ^ exp d == 0)%Q as E0 by ring.
  rewrite E0 in H. exact (Qlt_irrefl _ H).
Qed.

(** A target that is not negative, at a positive rate, is an amount that
    is not negative. *)
Lemma hastings_nonneg (target rate : Decimal) :
  (0 <= toQ target)%Q -> (0 < toQ rate)%Q -> 0 <= hastings target rate.
Proof.
  intros Ht Hr. unfold hastings.
  apply Z.mul_nonneg_nonneg; [|lia].
  apply round_half_away_nonneg.
  apply Qmult_le_0_compat; [|apply Qlt_le_weak, pow10_pos].
  apply Qmult_le_0_compat; [assumption|].
  apply Qinv_le_0_compat, Qlt_le_weak, Hr.
Qed.

Lemma convertToCurrency_returns (target rate : Decimal) :
  (0 <= toQ target)%Q -> (0 < toQ rate)%Q -> hastings target rate < 2 ^ 128 ->
  int32 (quotient_scale target rate) ->
  convertToCurrency target rate = Returned (of_Big (hastings target rate)) /\
  Big (of_Big (hastings target rate)) = hastings target rate.
Proof.
  intros Ht Hr Hfit Hscale. pose proof (hastings_nonneg target rate Ht Hr) as H0.
  rewrite convertToCurrency_amount by (assumption || apply toQ_pos_value, Hr).
  destruct (Z.ltb_spec (hastings target rate) 0); [lia|].
  destruct (Z.leb_spec (2 ^ 128) (hastings target rate)); [lia|].
  split; [reflexivity | apply Big_of_Big; lia].
Qed.

(** The decision, when the product of the baseline and the threshold
    fraction can be formed: the strict comparison of the distance with that
    product. *)
Lemma isOverThreshold_fits (a b percentage : Decimal) :
  int32 (exp a + exp percentage) ->
  exists over,
    isOverThreshold a b percentage = Returned over /\
    (over = true <-> (toQ a * toQ percentage < Qabs (toQ a - toQ b))%Q).
Proof.
  intros Hfit. unfold isOverThreshold.
  pose proof (toQ_Mul a percentage _ (Mul_fits a percentage Hfit)) as E.
  rewrite (Mul_fits a percentage Hfit). cbn [mbind exec_bind].
  eexists. split; [reflexivity|].
  rewrite GreaterThan_toQ, E, toQ_Abs, toQ_Sub. reflexivity.
Qed.

(** The decision, when it cannot: the panic of [Mul]. *)
Lemma isOverThreshold_overflow (a b percentage : Decimal) :
  ~ int32 (exp a + exp percentage) ->
  isOverThreshold a b percentage = Panicked (ExponentOverflow (exp a + exp percentage)).
Proof.
  intros Hfit. unfold isOverThreshold. rewrite Mul_overflow by assumption.
  reflexivity.
Qed.

(** C3, as the code has it: when the exponents of the baseline and of the
    threshold fraction add up to an exponent that fits an [int32], the
    decision returns, and it is [true] exactly when the distance of the
    snapshot from the baseline is greater than the baseline times the
    threshold fraction; being equal to that limit does not trigger.  So
    [ShouldAct(100, 109, 0.1)] is false, [ShouldAct(100, 111, 0.1)] is true
    and [ShouldAct(100, 110, 0.1)], at the limit, is false.  When the sum
    of the two exponents does not fit an [int32] the decision does not
    return: the multiplication panics. *)
Theorem isOverThreshold_is_the_strict_relative_test :
  (forall a b percentage,
     int32 (exp a + exp percentage) ->
     exists over,
       isOverThreshold a b percentage = Returned over /\
       (over = true <-> (toQ a * toQ percentage < Qabs (toQ a - toQ b))%Q) /\
       ((Qabs (toQ a - toQ b) == toQ a * toQ percentage)%Q -> over = false)) /\
  (forall a b percentage,
     ~ int32 (exp a + exp percentage) ->
     isOverThreshold a b percentage
     = Panicked (ExponentOverflow (exp a + exp percentage))) /\
  isOverThreshold (NewFromInt 100) (NewFromInt 109) (New 1 (-1)) = Returned false /\
  isOverThreshold (NewFromInt 100) (NewFromInt 111) (New 1 (-1)) = Returned true /\
  isOverThreshold (NewFromInt 100) (NewFromInt 110) (New 1 (-1)) = Returned false.
Proof.
  split; [|split; [exact isOverThreshold_overflow | repeat split; reflexivity]].
  intros a b percentage Hfit.
  destruct (isOverThreshold_fits a b percentage Hfit) as (over & Hrun & Hiff).
  exists over. split; [exact Hrun|]. split; [exact Hiff|].
  intros E. destruct over; [|reflexivity].
  destruct Hiff as [Hiff _]. specialize (Hiff eq_refl).
  rewrite E in Hiff. exfalso. exact (Qlt_irrefl _ Hiff).
Qed.

(** C4, as the code has it: in an update round the hosts are called in the
    order of the list until the first call fails.  The hosts before the one
    that fails have been updated, the hosts after it are not called in that
    round, and the round returns the error of that host, wrapped with its
    address; the round returns no error exactly when every call succeeded,
    and then every host has been called. *)
Theorem updateHosts_stops_at_the_first_failure
    (api : API) (hosts : list Host) (target : Prices) (rate : Decimal)
    (log : zap.Logger) res evs :
  updateHosts api hosts target rate log = Returned (res, evs) ->
  exists s,
    target_settings target rate = Returned s /\
    (forall before h after cause,
       hosts = before ++ h :: after ->
       Forall (fun h => api h s = None) before ->
       api h s = Some cause ->
       res = Some (host_failure h cause) /\ called evs = before ++ [h]) /\
    (res = None <-> Forall (fun h => api h s = None) hosts) /\
    (res = None -> called evs = hosts).
Proof.
  rewrite updateHosts_rounds.
  destruct (target_settings target rate) as [s|]; [|discriminate].
  cbn [mbind exec_bind]. intros [= Hrun]. exists s. split; [reflexivity|].
  set (lg := round_logger log rate s) in *.
  assert (E1 : res = (updateHosts_loop api lg s hosts).1) by (rewrite Hrun; reflexivity).
  assert (E2 : evs = (updateHosts_loop api lg s hosts).2) by (rewrite Hrun; reflexivity).
  clear Hrun. subst res evs. repeat split.
  - subst hosts. eapply updateHosts_loop_first; eauto.
  - subst hosts. eapply updateHosts_loop_first; eauto.
  - apply updateHosts_loop_None.
  - intros H. apply updateHosts_loop_all, H.
  - intros H. apply updateHosts_loop_all, updateHosts_loop_None with (log := lg), H.
Qed.

(** C5, as the code has it: a failure of the conversion of a target price
    at the current rate (an amount that is negative or does not fit 128
    bits, or a rate of zero) is a panic.  It is not returned as an error of
    the round: the round, the turn of the loop and the loop itself end in
    the panic, and no later tick is served. *)
Theorem conversion_failure_panics
    (cfg : Config) (logger : zap.Logger) (api : API)
    (lastRate average target : Decimal) (p : panic) :
  isOverThreshold lastRate average (Threshold cfg) = Returned true ->
  In target [Storage (Prices_ cfg); Ingress (Prices_ cfg); Egress (Prices_ cfg)] ->
  convertToCurrency target average = Panicked p ->
  exists p',
    updateHosts api (Hosts cfg) (Prices_ cfg) average logger = Panicked p' /\
    tick cfg logger api lastRate average = Panicked p' /\
    forall ticks, loop cfg logger lastRate ((average, api) :: ticks) = Panicked p'.
Proof.
  intros Hover Hin Hconv.
  assert (Hs : exists p', target_settings (Prices_ cfg) average = Panicked p').
  { unfold target_settings.
    destruct Hin as [<-|[<-|[<-|[]]]].
    - rewrite Hconv. eauto.
    - destruct (_ ← convertToCurrency (Storage _) average; _); [|eauto].
      rewrite Hconv. eauto.
    - destruct (_ ← convertToCurrency (Storage _) average; _); [|eauto].
      cbn [mbind exec_bind].
      destruct (_ ← convertToCurrency (Ingress _) average; _); [|eauto].
      rewrite Hconv. eauto. }
  destruct Hs as [p' Hs]. exists p'.
  assert (Hup : updateHosts api (Hosts cfg) (Prices_ cfg) average logger = Panicked p').
  { rewrite updateHosts_rounds, Hs. reflexivity. }
  assert (Htick : tick cfg logger api lastRate average = Panicked p').
  { unfold tick. rewrite Hover. cbn [mbind exec_bind negb]. rewrite Hup. reflexivity. }
  repeat split; [exact Hup | exact Htick|].
  intros ticks. cbn [loop]. rewrite Htick. reflexivity.
Qed.

(** C6: after a turn in which the threshold test fires, the baseline is the
    snapshot the turn was made with, whatever the hosts answered, also when
    every call failed; and the turn does come back whenever the three
    prices convert. *)
Theorem baseline_is_the_snapshot_acted_on
    (cfg : Config) (logger : zap.Logger) (api : API) (lastRate average : Decimal) :
  isOverThreshold lastRate average (Threshold cfg) = Returned true ->
  (forall lastRate' evs,
     tick cfg logger api lastRate average = Returned (lastRate', evs) ->
     lastRate' = average) /\
  (forall s,
     target_settings (Prices_ cfg) average = Returned s ->
     exists evs, tick cfg logger api lastRate average = Returned (average, evs)).
Proof.
  intros Hover. unfold tick. rewrite Hover. cbn [mbind exec_bind negb]. split.
  - intros lastRate' evs.
    destruct (updateHosts api (Hosts cfg) (Prices_ cfg) average logger)
      as [[[err|] evs']|]; cbn [mbind exec_bind]; congruence.
  - intros s Hs. rewrite updateHosts_rounds, Hs. cbn [mbind exec_bind].
    destruct (updateHosts_loop _ _ _ _) as [[err|] evs']; eauto.
Qed.

(** C8, as the code has it: for a positive rate and targets that are not
    negative, a price in hastings is the quotient of the target by the rate
    rounded, half away from zero, to 16 fractional digits and then scaled
    by [10 ^ 24], an integer that the final rounding leaves as it is, as
    long as the division can be formed (the difference of the scales of
    target and rate fits an [int32]) and the amount fits the 128 bits of a
    currency.  The storage price is that amount divided by 4320 and then by
    [10 ^ 12], the ingress and the egress price are theirs divided by
    [10 ^ 12], each division rounding down. *)
Theorem prices_come_from_the_rounded_quotient
    (api : API) (hosts : list Host) (target : Prices) (rate : Decimal)
    (log : zap.Logger) :
  (0 < toQ rate)%Q ->
  (0 <= toQ (Storage target))%Q ->
  (0 <= toQ (Ingress target))%Q ->
  (0 <= toQ (Egress target))%Q ->
  hastings (Storage target) rate < 2 ^ 128 ->
  hastings (Ingress target) rate < 2 ^ 128 ->
  hastings (Egress target) rate < 2 ^ 128 ->
  int32 (quotient_scale (Storage target) rate) ->
  int32 (quotient_scale (Ingress target) rate) ->
  int32 (quotient_scale (Egress target) rate) ->
  (forall t, In t [Storage target; Ingress target; Egress target] ->
     exists c, convertToCurrency t rate = Returned c /\ Big c = hastings t rate) /\
  exists s,
    updateHosts api hosts target rate log =
      Returned (updateHosts_loop api (round_logger log rate s) s hosts) /\
    Big (MinStoragePrice s) = hastings (Storage target) rate / 4320 / 10 ^ 12 /\
    Big (MinIngressPrice s) = hastings (Ingress target) rate / 10 ^ 12 /\
    Big (MinEgressPrice s) = hastings (Egress target) rate / 10 ^ 12.
Proof.
  intros Hr Hs Hi He Fs Fi Fe Ss Si Se.
  destruct (convertToCurrency_returns _ _ Hs Hr Fs Ss) as [Cs Bs].
  destruct (convertToCurrency_returns _ _ Hi Hr Fi Si) as [Ci Bi].
  destruct (convertToCurrency_returns _ _ He Hr Fe Se) as [Ce Be].
  pose proof (hastings_nonneg _ _ Hs Hr) as Ns.
  pose proof (hastings_nonneg _ _ Hi Hr) as Ni.
  pose proof (hastings_nonneg _ _ He Hr) as Ne.
  split.
  { intros t [<-|[<-|[<-|[]]]]; eauto. }
  destruct (Div64_spec (of_Big (hastings (Storage target) rate)) 4320)
    as (s1 & D1 & V1 & R1); [lia | lia |].
  destruct (Div64_spec s1 (10 ^ 12)) as (s2 & D2 & V2 & R2); [lia | lia |].
  destruct (Div64_spec (of_Big (hastings (Ingress target) rate)) (10 ^ 12))
    as (i1 & D3 & V3 & R3); [lia | lia |].
  destruct (Div64_spec (of_Big (hastings (Egress target) rate)) (10 ^ 12))
    as (e1 & D4 & V4 & R4); [lia | lia |].
  exists (mkSettings s2 i1 e1). split.
  - rewrite updateHosts_rounds. unfold target_settings.
    rewrite Cs, Ci, Ce. cbn [mbind exec_bind].
    rewrite D1. cbn [mbind exec_bind]. rewrite D2, D3, D4. reflexivity.
  - cbn [MinStoragePrice MinIngressPrice MinEgressPrice].
    rewrite V2, V1, V3, V4, Bs, Bi, Be. auto.
Qed.

Import examples.

(** C3 at the limit: a baseline of 100 and a snapshot of 110 with a
    threshold of a tenth. *)
Lemma isOverThreshold_is_the_strict_relative_test_witness :
  let a := NewFromInt 100 in
  let b := NewFromInt 110 in
  let percentage := New 1 (-1) in
  int32 (exp a + exp percentage) /\
  (Qabs (toQ a - toQ b) == toQ a * toQ percentage)%Q /\
  exists over,
    isOverThreshold a b percentage = Returned over /\
    (over = true <-> (toQ a * toQ percentage < Qabs (toQ a - toQ b))%Q) /\
    ((Qabs (toQ a - toQ b) == toQ a * toQ percentage)%Q -> over = false).
Proof.
  intros a b percentage.
  assert (H1 : int32 (exp a + exp percentage)) by (vm_compute; split; discriminate).
  assert (H2 : (Qabs (toQ a - toQ b) == toQ a * toQ percentage)%Q)
    by (vm_compute; reflexivity).
  refine (conj H1 (conj H2 _)).
  exact (proj1 isOverThreshold_is_the_strict_relative_test a b percentage H1).
Defined.

(** C3 as it is stated fails: for a baseline of [1e2147483647], a snapshot
    of [2e2147483647] and a threshold of 10, three decimals that Go can
    hold, the product of the baseline and the threshold has the exponent
    2147483648, which no [int32] holds: the decision returns neither
    [true] nor [false], it panics. *)
Lemma isOverThreshold_panics_beyond_int32 :
  let a := New 1 2147483647 in
  let b := New 2 2147483647 in
  let percentage := New 1 1 in
  representable a /\ representable b /\ representable percentage /\
  isOverThreshold a b percentage = Panicked (ExponentOverflow 2147483648) /\
  forall over, isOverThreshold a b percentage <> Returned over.
Proof.
  cbv zeta.
  assert (H : isOverThreshold (New 1 2147483647) (New 2 2147483647) (New 1 1)
              = Panicked (ExponentOverflow 2147483648)).
  { unfold isOverThreshold. rewrite Mul_overflow; [reflexivity|].
    cbn [exp New]. unfold int32, MaxInt32. lia. }
  assert (R : forall v, representable (New v 2147483647) /\ representable (New v 1)).
  { intros v. unfold representable, int32, MinInt32, MaxInt32. cbn [exp New]. lia. }
  split; [apply R|]. split; [apply R|]. split; [apply R|]. split; [exact H|].
  intros over. rewrite H. discriminate.
Qed.

(** C4 on two hosts of which the first refuses. *)
Lemma updateHosts_stops_at_the_first_failure_witness :
  let s := mkSettings (NewCurrency 46296296296 0) (NewCurrency 20000000000000 0)
             (NewCurrency 2000000000000000 0) in
  let res := Some (host_failure hostA (Opaque "connection refused")) in
  let evs := [UpdateSettings hostA s] in
  updateHosts (down "http://a:9980/api") [hostA; hostB] (Prices_ defaults) (milli 5)
    console = Returned (res, evs) /\
  exists s,
    target_settings (Prices_ defaults) (milli 5) = Returned s /\
    (forall before h after cause,
       [hostA; hostB] = before ++ h :: after ->
       Forall (fun h => down "http://a:9980/api" h s = None) before ->
       down "http://a:9980/api" h s = Some cause ->
       res = Some (host_failure h cause) /\ called evs = before ++ [h]) /\
    (res = None <->
     Forall (fun h => down "http://a:9980/api" h s = None) [hostA; hostB]) /\
    (res = None -> called evs = [hostA; hostB]).
Proof.
  intros s res evs.
  assert (H : updateHosts (down "http://a:9980/api") [hostA; hostB] (Prices_ defaults)
                (milli 5) console = Returned (res, evs)) by (vm_compute; reflexivity).
  refine (conj H _).
  exact (updateHosts_stops_at_the_first_failure _ _ _ _ _ _ _ H).
Defined.

(** C4 as it is stated fails: when the first of two hosts refuses, the
    round returns its error and the second host is never called. *)
Lemma updateHosts_leaves_the_remaining_hosts_uncalled :
  match updateHosts (down "http://a:9980/api") [hostA; hostB] (Prices_ defaults)
          (milli 5) console with
  | Returned (res, evs) =>
      res = Some (host_failure hostA (Opaque "connection refused")) /\
      called evs = [hostA] /\
      ~ In hostB (called evs)
  | Panicked _ => False
  end.
Proof.
  vm_compute. split; [reflexivity|]. split; [reflexivity|].
  intros [H|[]]. discriminate H.
Qed.

(** C5 on a storage price below zero. *)
Lemma conversion_failure_panics_witness :
  let p := PanicError (Errorf "value cannot be negative") in
  isOverThreshold (milli 4) (milli 5) (Threshold negative_storage) = Returned true /\
  In (New (-1) 0)
     [Storage (Prices_ negative_storage); Ingress (Prices_ negative_storage);
      Egress (Prices_ negative_storage)] /\
  convertToCurrency (New (-1) 0) (milli 5) = Panicked p /\
  exists p',
    updateHosts all_up (Hosts negative_storage) (Prices_ negative_storage) (milli 5)
      console = Panicked p' /\
    tick negative_storage console all_up (milli 4) (milli 5) = Panicked p' /\
    forall ticks,
      loop negative_storage console (milli 4) ((milli 5, all_up) :: ticks) = Panicked p'.
Proof.
  intros p.
  assert (H1 : isOverThreshold (milli 4) (milli 5) (Threshold negative_storage)
               = Returned true)
    by reflexivity.
  assert (H2 : In (New (-1) 0)
                 [Storage (Prices_ negative_storage); Ingress (Prices_ negative_storage);
                  Egress (Prices_ negative_storage)]) by (left; reflexivity).
  assert (H3 : convertToCurrency (New (-1) 0) (milli 5) = Panicked p)
    by (vm_compute; reflexivity).
  refine (conj H1 (conj H2 (conj H3 _))).
  exact (conversion_failure_panics negative_storage console all_up
           (milli 4) (milli 5) (New (-1) 0) p H1 H2 H3).
Defined.

(** C5 as it is stated fails: with a storage price below zero the round
    does not return an error, it panics, and the loop ends at that tick
    without serving the next one. *)
Lemma conversion_failure_ends_the_loop :
  updateHosts all_up (Hosts negative_storage) (Prices_ negative_storage) (milli 5)
    console = Panicked (PanicError (Errorf "value cannot be negative")) /\
  loop negative_storage console (milli 4) [(milli 5, all_up); (milli 6, all_up)]
    = Panicked (PanicError (Errorf "value cannot be negative")).
Proof. split; vm_compute; reflexivity. Qed.

(** C6 on a round in which every host refuses. *)
Lemma baseline_is_the_snapshot_acted_on_witness :
  isOverThreshold (milli 4) (milli 5) (Threshold defaults) = Returned true /\
  (exists evs, tick defaults console all_down (milli 4) (milli 5)
               = Returned (milli 5, evs)) /\
  (forall lastRate' evs,
     tick defaults console all_down (milli 4) (milli 5) = Returned (lastRate', evs) ->
     lastRate' = milli 5).
Proof.
  assert (H : isOverThreshold (milli 4) (milli 5) (Threshold defaults) = Returned true)
    by reflexivity.
  refine (conj H (conj _ _)).
  - eapply (proj2 (baseline_is_the_snapshot_acted_on defaults console all_down
                     (milli 4) (milli 5) H)).
    vm_compute. reflexivity.
  - exact (proj1 (baseline_is_the_snapshot_acted_on defaults console all_down
                    (milli 4) (milli 5) H)).
Defined.

(** C8 on the prices [main] starts from, at a rate of 0.005. *)
Lemma prices_come_from_the_rounded_quotient_witness :
  let target := Prices_ defaults in
  let rate := milli 5 in
  (0 < toQ rate)%Q /\
  (0 <= toQ (Storage target))%Q /\
  (0 <= toQ (Ingress target))%Q /\
  (0 <= toQ (Egress target))%Q /\
  hastings (Storage target) rate < 2 ^ 128 /\
  hastings (Ingress target) rate < 2 ^ 128 /\
  hastings (Egress target) rate < 2 ^ 128 /\
  int32 (quotient_scale (Storage target) rate) /\
  int32 (quotient_scale (Ingress target) rate) /\
  int32 (quotient_scale (Egress target) rate) /\
  (forall t, In t [Storage target; Ingress target; Egress target] ->
     exists c, convertToCurrency t rate = Returned c /\ Big c = hastings t rate) /\
  exists s,
    updateHosts all_up [hostA; hostB] target rate console =
      Returned (updateHosts_loop all_up (round_logger console rate s) s [hostA; hostB]) /\
    Big (MinStoragePrice s) = hastings (Storage target) rate / 4320 / 10 ^ 12 /\
    Big (MinIngressPrice s) = hastings (Ingress target) rate / 10 ^ 12 /\
    Big (MinEgressPrice s) = hastings (Egress target) rate / 10 ^ 12.
Proof.
  intros target rate.
  assert (H1 : (0 < toQ rate)%Q) by reflexivity.
  assert (H2 : (0 <= toQ (Storage target))%Q) by (vm_compute; discriminate).
  assert (H3 : (0 <= toQ (Ingress target))%Q) by (vm_compute; discriminate).
  assert (H4 : (0 <= toQ (Egress target))%Q) by (vm_compute; discriminate).
  assert (H5 : hastings (Storage target) rate < 2 ^ 128) by (vm_compute; reflexivity).
  assert (H6 : hastings (Ingress target) rate < 2 ^ 128) by (vm_compute; reflexivity).
  assert (H7 : hastings (Egress target) rate < 2 ^ 128) by (vm_compute; reflexivity).
  assert (H8 : int32 (quotient_scale (Storage target) rate))
    by (vm_compute; split; discriminate).
  assert (H9 : int32 (quotient_scale (Ingress target) rate))
    by (vm_compute; split; discriminate).
  assert (H10 : int32 (quotient_scale (Egress target) rate))
    by (vm_compute; split; discriminate).
  refine (conj H1 (conj H2 (conj H3 (conj H4 (conj H5 (conj H6 (conj H7
            (conj H8 (conj H9 (conj H10 _)))))))))).
  exact (prices_come_from_the_rounded_quotient all_up [hostA; hostB] target rate console
           H1 H2 H3 H4 H5 H6 H7 H8 H9 H10).
Defined.

(** C8 as it is stated fails: for an ingress target of 0.99999999999999996
    at the rate 1 the quotient is rounded to 1 before it is scaled, so the
    amount is [10 ^ 24] and the ingress price [10 ^ 12], whereas the target
    divided by the rate, scaled by [10 ^ 24] and rounded to an integer is
    999999999999999960000000, which divided by [10 ^ 12] is 999999999999. *)
Lemma prices_are_not_the_rounded_scaled_quotient :
  let ingress := New 99999999999999996 (-17) in
  let rate := New 1 0 in
  (0 < toQ rate)%Q /\ (0 <= toQ ingress)%Q /\
  spec_hastings ingress rate = 999999999999999960000000 /\
  match convertToCurrency ingress rate with
  | Returned c => Big c = 10 ^ 24 /\ Big c <> spec_hastings ingress rate
  | Panicked _ => False
  end /\
  match target_settings (mkPrices (New 1 0) ingress (New 1 1)) rate with
  | Returned s =>
      Big (MinIngressPrice s) = 10 ^ 12 /\
      Big (MinIngressPrice s) <> spec_hastings ingress rate / 10 ^ 12
  | Panicked _ => False
  end.
Proof.
  cbv zeta. split; [reflexivity|]. split; [vm_compute; discriminate|].
  split; [vm_compute; reflexivity|]. split.
  - vm_compute. split; [reflexivity | discriminate].
  - vm_compute. split; [reflexivity | discriminate].
Qed.

End hpind_facts.

(** ** More on the averager: the options, the first refresh, [Run] *)

Module rate_more.
Import decimal spec terms decimal_facts rounding_facts rate rate_facts.

(** Linear arithmetic with the length of the window. *)
Ltac window_arith := pose proof window_value; lia.

(** A rounded number is within a half of the number. *)
Lemma round_half_away_close (x : Q) :
  (Qabs (inject_Z (round_half_away x) - x) <= 1 # 2)%Q.
Proof.
  destruct x as [n d]. rewrite round_half_away_frac.
  set (k := (2 * Z.abs n + Z.pos d) / (2 * Z.pos d)).
  assert (Hk : 2 * Z.pos d * k <= 2 * Z.abs n + Z.pos d < 2 * Z.pos d * k + 2 * Z.pos d).
  { pose proof (Z.div_mod (2 * Z.abs n + Z.pos d) (2 * Z.pos d) ltac:(lia)) as E.
    pose proof (Z.mod_pos_bound (2 * Z.abs n + Z.pos d) (2 * Z.pos d) ltac:(lia)) as B.
    fold k in E. lia. }
  apply Qabs_Qle_condition.
  unfold Qle, Qminus, Qplus, Qopp, inject_Z; cbn [Qnum Qden].
  destruct n as [|p|p]; cbv [Z.sgn Z.abs] in *; split; nia.
Qed.

Section Averager.
Context {float64 : Type} (NewFromFloat : float64 -> Decimal).

Abbreviation getExchangeRate := (rate.getExchangeRate NewFromFloat).
Abbreviation Update := (rate.Update NewFromFloat).
Abbreviation Updates := (rate.Updates NewFromFloat).
Abbreviation Run := (rate.Run NewFromFloat).
Abbreviation Run_loop := (rate.Run_loop NewFromFloat).
Abbreviation sample := (terms.sample NewFromFloat).
Abbreviation samples := (terms.samples NewFromFloat).
Abbreviation tick_level := (terms.tick_level NewFromFloat).

Lemma sample_Some (cur : string) (sc : Quote) (x : Decimal) :
  sample cur sc = Some x <-> getExchangeRate cur sc = (x, None).
Proof.
  unfold terms.sample. destruct (getExchangeRate cur sc) as [y [e|]]; split;
    intros H; try discriminate; congruence.
Qed.

Lemma sample_None (cur : string) (sc : Quote) :
  sample cur sc = None <-> exists r e, getExchangeRate cur sc = (r, Some e).
Proof.
  unfold terms.sample. destruct (getExchangeRate cur sc) as [y [e|]]; split;
    intros H; try discriminate; eauto. destruct H as (r & e & [=]).
Qed.

(** The capacity by the sign and the size of the interval. *)
Lemma quot_window (f : Z) :
  (f < 0 \/ window < f -> Z.quot window f <= 0) /\
  (0 < f <= window -> 1 <= Z.quot window f /\ Z.quot window f = capacity f).
Proof.
  split.
  - intros [Hneg|Hlong].
    + replace f with (- - f) by lia. rewrite Z.quot_opp_r by lia.
      pose proof (Z.quot_pos window (- f) ltac:(window_arith) ltac:(lia)). lia.
    + rewrite Z.quot_small by window_arith. lia.
  - intros Hf. unfold capacity. rewrite Z.quot_div_nonneg by window_arith.
    split; [|reflexivity].
    pose proof (Z.div_le_mono _ _ f ltac:(lia) (proj2 Hf)) as H.
    rewrite Z.div_same in H by lia. exact H.
Qed.

Lemma fifo_push_first (cap : Z) (x : Decimal) :
  fifo_push cap [] x = if 1 <=? cap then [x] else [].
Proof.
  unfold fifo_push. cbn [app length].
  destruct (Z.gtb_spec (Z.of_nat 1) cap), (Z.leb_spec 1 cap); try lia; reflexivity.
Qed.

Lemma fifo_push_nonempty (cap : Z) (buffer : list Decimal) (x : Decimal) :
  1 <= cap -> fifo_push cap buffer x <> [].
Proof.
  intros Hcap. unfold fifo_push.
  destruct buffer as [|z l]; cbn [app length].
  - destruct (Z.gtb_spec (Z.of_nat 1) cap); [lia | discriminate].
  - destruct (_ >? _); [destruct l|]; discriminate.
Qed.

(** X1: the first refresh of a new averager whose quote arrives, with a
    rate that Go can hold, comes back exactly when the interval is positive
    and at most the window of 48 hours, and then the buffer is that one
    sample.  An interval of zero panics with the integer division by zero
    of the capacity; a negative interval, like one beyond the window,
    panics with the division by zero of the decimals. *)
Theorem first_refresh_by_interval (opts : list Option) (sc : Quote) (x : Decimal) :
  Forall exported opts ->
  getExchangeRate (currency (New opts)) sc = (x, None) ->
  representable x ->
  (frequency (New opts) = 0 ->
     Update (New opts) sc = Panicked IntegerDivideByZero) /\
  (frequency (New opts) < 0 \/ window < frequency (New opts) ->
     Update (New opts) sc = Panicked DecimalDivisionByZero) /\
  (0 < frequency (New opts) <= window ->
     exists ra' out,
       Update (New opts) sc = Returned (ra', (x, None), out) /\
       rates ra' = [x] /\ average ra' = rounded_mean [x]).
Proof.
  intros Hopts G Hx. destruct (New_fresh opts Hopts) as [Hfresh _].
  destruct (Update_ends NewFromFloat (New opts) sc)
    as [r cause G'|y G' F|y G' F B|y buffer G' F B NE O|y buffer G' F B NE O]; try congruence.
  - repeat split; intros; try congruence; window_arith.
  - rewrite Hfresh, fifo_push_first in B.
    destruct (Z.leb_spec 1 (Z.quot window (frequency (New opts)))) as [L|L];
      [discriminate|].
    repeat split; intros; try congruence.
    match goal with H : 0 < _ <= _ |- _ => apply quot_window in H; lia end.
  - exfalso. rewrite Hfresh, fifo_push_first in B.
    destruct (Z.leb_spec 1 (Z.quot window (frequency (New opts)))) as [L|L];
      [|congruence].
    assert (y = x) by congruence. subst y buffer.
    apply O, mean_scale_fits. constructor; [exact Hx | constructor].
  - rewrite Hfresh, fifo_push_first in B.
    destruct (Z.leb_spec 1 (Z.quot window (frequency (New opts)))) as [L|L];
      [|congruence].
    assert (y = x) by congruence. subst y buffer.
    split; [intros; contradiction|]. split.
    + intros Hf. apply quot_window in Hf. lia.
    + intros _. eexists _, _. split; [reflexivity|]. split; reflexivity.
Qed.

(** X2: a refresh that succeeds returns the rate the service quoted for the
    configured currency, not the average; that sample is the newest one of
    the buffer, which has grown by it and given up at most its oldest
    sample; the configuration is untouched.  A refresh that fails returns
    the decimal zero. *)
Theorem Update_returns_the_sample (ra : Averager) (sc : Quote) ra' x err out :
  Update ra sc = Returned (ra', (x, err), out) ->
  (err = None ->
     (exists v, quoted sc !! currency ra = Some v /\ x = NewFromFloat v) /\
     last (rates ra') = Some x /\
     (rates ra' = rates ra ++ [x] \/ rates ra' = drop 1 (rates ra ++ [x])) /\
     currency ra' = currency ra /\ frequency ra' = frequency ra /\ log ra' = log ra) /\
  (err <> None -> x = Zero).
Proof.
  intros Hrun.
  destruct (Update_ends NewFromFloat ra sc)
    as [r cause G|y G F|y G F B|y buffer G F B NE O|y buffer G F B NE O]; try discriminate.
  - injection Hrun as <- <- <- <-. split; [discriminate | reflexivity].
  - injection Hrun as <- <- <- <-. split; [intros _ | intros H; contradiction].
    cbn [rates currency frequency log].
    assert (Hq : exists v, quoted sc !! currency ra = Some v /\ y = NewFromFloat v).
    { unfold rate.getExchangeRate in G. destruct (failure sc); [discriminate|].
      destruct (quoted sc !! currency ra) as [v|]; [|discriminate].
      injection G as <-. eauto. }
    assert (Hb : buffer = rates ra ++ [y] \/ buffer = drop 1 (rates ra ++ [y])).
    { rewrite <- B. unfold fifo_push. destruct (_ >? _); auto. }
    repeat split; auto.
    destruct Hb as [->| ->].
    + apply last_snoc.
    + destruct (rates ra) as [|z l] eqn:R; cbn [app drop] in *.
      * exfalso. apply NE. reflexivity.
      * rewrite drop_0. apply last_snoc.
Qed.

Lemma toQ_rounded_mean (l : list Decimal) :
  (toQ (rounded_mean l) ==
   inject_Z (round_half_away (mean l * ten ^ 16)) * / ten ^ 16)%Q.
Proof.
  unfold rounded_mean, toQ; cbn [value exp].
  rewrite (Qpower_opp ten 16). reflexivity.
Qed.

(** X3: after a refresh that succeeds the cached average is off the
    arithmetic mean of the buffer by at most half a unit of the sixteenth
    fractional digit. *)
Theorem cached_average_is_close_to_the_mean (ra : Averager) (sc : Quote) ra' res out :
  Update ra sc = Returned (ra', res, out) ->
  succeeded res ->
  (Qabs (toQ (average ra') - mean (rates ra')) <= 1 # 20000000000000000)%Q.
Proof.
  intros Hrun Hok.
  destruct (Update_ends NewFromFloat ra sc)
    as [r cause G|x G F|x G F B|x buffer G F B NE O|x buffer G F B NE O]; try discriminate;
    injection Hrun as <- <- <-; [discriminate Hok|].
  cbn [average rates].
  set (m := mean buffer). rewrite toQ_rounded_mean. fold m.
  pose proof (round_half_away_close (m * ten ^ 16)) as C.
  set (k := inject_Z (round_half_away (m * ten ^ 16))) in *.
  assert (P : (0 < ten ^ 16)%Q) by apply pow10_pos.
  assert (E : (k * / ten ^ 16 - m == (k - m * ten ^ 16) * / ten ^ 16)%Q).
  { field; try apply pow10_nonzero. }
  rewrite E, Qabs_Qmult.
  rewrite (Qabs_pos (/ ten ^ 16)) by (apply Qlt_le_weak, Qinv_lt_0_compat, P).
  apply Qle_trans with ((1 # 2) * / ten ^ 16)%Q.
  - apply Qmult_le_compat_r; [exact C|]. apply Qlt_le_weak, Qinv_lt_0_compat, P.
  - vm_compute. discriminate.
Qed.

(** A refresh keeps the averager either untouched by any sample or
    refreshed. *)
Lemma Updates_refreshed (scs : list Quote) :
  forall (ra : Averager) ra' ress,
    Updates ra scs = Returned (ra', ress) ->
    (Forall (fun res => ~ succeeded res) ress /\ ra' = ra) \/
    (Exists succeeded ress /\ refreshed ra').
Proof.
  induction scs as [|sc scs IH]; intros ra ra' ress Hrun; cbn [rate.Updates] in Hrun.
  - injection Hrun as <- <-. left. auto.
  - destruct (Update_ends NewFromFloat ra sc)
      as [r cause G|x G F|x G F B|x buffer G F B NE O|x buffer G F B NE O];
      cbn [mbind exec_bind] in Hrun; try discriminate.
    + destruct (Updates ra scs) as [[ra'' ress']|] eqn:Hrest; cbn in Hrun; [|discriminate].
      injection Hrun as <- <-.
      destruct (IH _ _ _ Hrest) as [[Hno ->]|[Hex Hr]].
      * left. split; [|reflexivity]. constructor; [discriminate | exact Hno].
      * right. split; [apply Exists_cons_tl, Hex | exact Hr].
    + match type of Hrun with context [rate.Updates _ ?a scs] => set (ra1 := a) in * end.
      destruct (Updates ra1 scs) as [[ra'' ress']|] eqn:Hrest; cbn in Hrun; [|discriminate].
      injection Hrun as <- <-. right.
      split; [apply Exists_cons_hd; reflexivity|].
      destruct (IH _ _ _ Hrest) as [[_ ->]|[_ Hr]]; [|exact Hr].
      split; [exact NE | reflexivity].
Qed.

(** X4: after any sequence of refreshes of a new averager, failed and
    successful ones mixed, [Rate] answers the zero value if none has
    succeeded and otherwise the rounded mean of the buffer, which then holds
    at least one sample: the average is never stale with respect to the
    buffer. *)
Theorem Rate_is_the_rounded_mean_of_the_buffer
    (opts : list Option) (scs : list Quote) ra ress :
  Forall exported opts ->
  Updates (New opts) scs = Returned (ra, ress) ->
  (Forall (fun res => ~ succeeded res) ress ->
     rates ra = [] /\ Rate ra = zero_value) /\
  (Exists succeeded ress ->
     rates ra <> [] /\ Rate ra = rounded_mean (rates ra)).
Proof.
  intros Hopts Hrun. destruct (New_fresh opts Hopts) as [Hfresh Hzero].
  destruct (Updates_refreshed scs _ _ _ Hrun) as [[Hno ->]|[Hex Hr]]; split.
  - intros _. unfold Rate. auto.
  - intros Hex. exfalso. apply Exists_exists in Hex as (res & Hin & Hs).
    rewrite Forall_forall in Hno. exact (Hno res Hin Hs).
  - intros Hno. exfalso. apply Exists_exists in Hex as (res & Hin & Hs).
    rewrite Forall_forall in Hno. exact (Hno res Hin Hs).
  - intros _. exact Hr.
Qed.

(** [Run] tick by tick: a tick without a sample leaves the averager alone,
    a tick with a sample pushes it; each tick writes one entry unless the
    logger discards them. *)
Lemma Run_loop_returned (ticks : list Quote) :
  forall (ra : Averager) (hist : list Decimal) ra' out,
    0 < frequency ra <= window ->
    rates ra = last_n (capacity (frequency ra)) hist ->
    Run_loop ra ticks = Returned (ra', out) ->
    rates ra' = last_n (capacity (frequency ra)) (hist ++ samples (currency ra) ticks) /\
    frequency ra' = frequency ra /\ currency ra' = currency ra /\
    log ra' = log ra /\
    zap.level <$> out =
      (if zap.nop (log ra) then [] else tick_level (currency ra) <$> ticks).
Proof.
  induction ticks as [|sc ticks IH]; intros ra hist ra' out Hf Hr Hrun;
    cbn [rate.Run_loop] in Hrun.
  - injection Hrun as <- <-. cbn. rewrite app_nil_r.
    destruct (zap.nop (log ra)); auto.
  - destruct (quot_window (frequency ra)) as [_ Hq]. destruct (Hq Hf) as [Hcap Ecap].
    unfold terms.samples, terms.tick_level in *. cbn [omap list_omap fmap list_fmap].
    destruct (Update_ends NewFromFloat ra sc)
      as [r cause G|x G F|x G F B|x buffer G F B NE O|x buffer G F B NE O];
      cbn [mbind exec_bind] in Hrun; try discriminate.
    + assert (S : sample (currency ra) sc = None) by (apply sample_None; eauto).
      rewrite S.
      destruct (Run_loop ra ticks) as [[ra1 out1]|] eqn:Hrest;
        cbn [mbind exec_bind] in Hrun; [|discriminate].
      injection Hrun as <- <-.
      destruct (IH ra hist _ _ Hf Hr Hrest) as (E1 & E2 & E3 & E4 & E5).
      repeat split; auto.
      rewrite fmap_app, E5. unfold zap.write.
      destruct (zap.nop (log ra)); reflexivity.
    + assert (S : sample (currency ra) sc = Some x) by (apply sample_Some; exact G).
      rewrite S.
      match type of Hrun with context [rate.Run_loop _ ?a ticks] => set (ra1 := a) in * end.
      destruct (Run_loop ra1 ticks) as [[ra2 out2]|] eqn:Hrest;
        cbn [mbind exec_bind] in Hrun; [|discriminate].
      injection Hrun as <- <-.
      destruct (IH ra1 (hist ++ [x]) ra2 out2) as (E1 & E2 & E3 & E4 & E5).
      { exact Hf. }
      { unfold ra1; cbn [rates frequency]. rewrite <- B, Ecap, Hr.
        apply fifo_push_window. lia. }
      { exact Hrest. }
      unfold ra1 in *; cbn [frequency currency log] in *.
      rewrite <- app_assoc in E1. repeat split; auto.
      rewrite fmap_app, E5. unfold zap.write.
      destruct (zap.nop (log ra)); reflexivity.
Qed.

(** With an interval that is positive and at most the window, and rates
    that Go can hold, no tick of [Run] panics. *)
Lemma Run_loop_returns (ticks : list Quote) :
  forall (ra : Averager),
    0 < frequency ra <= window ->
    Forall representable (rates ra) ->
    Forall representable (samples (currency ra) ticks) ->
    exists ra' out, Run_loop ra ticks = Returned (ra', out).
Proof.
  induction ticks as [|sc ticks IH]; intros ra Hf Hrep Hs; cbn [rate.Run_loop].
  - eauto.
  - destruct (quot_window (frequency ra)) as [_ Hq]. destruct (Hq Hf) as [Hcap Ecap].
    unfold terms.samples in *. cbn [omap list_omap] in Hs.
    destruct (Update_ends NewFromFloat ra sc)
      as [r cause G|x G F|x G F B|x buffer G F B NE O|x buffer G F B NE O];
      cbn [mbind exec_bind].
    + assert (S : sample (currency ra) sc = None) by (apply sample_None; eauto).
      rewrite S in Hs.
      destruct (IH ra Hf Hrep Hs) as (ra' & out & ->). cbn [mbind exec_bind]. eauto.
    + lia.
    + exfalso. exact (fifo_push_nonempty _ _ _ Hcap B).
    + exfalso.
      assert (S : sample (currency ra) sc = Some x) by (apply sample_Some; exact G).
      rewrite S in Hs. apply Forall_cons in Hs as [Hx _].
      apply O, mean_scale_fits. subst buffer.
      apply fifo_push_representable; assumption.
    + assert (S : sample (currency ra) sc = Some x) by (apply sample_Some; exact G).
      rewrite S in Hs. apply Forall_cons in Hs as [Hx Hs].
      match goal with |- context [rate.Run_loop _ ?a ticks] => set (ra1 := a) end.
      destruct (IH ra1) as (ra' & out & ->).
      { exact Hf. }
      { unfold ra1; cbn [rates]. subst buffer.
        apply fifo_push_representable; assumption. }
      { exact Hs. }
      cbn [mbind exec_bind]. eauto.
Qed.

(** X5: with an interval that is positive and at most the window, [Run]
    comes back for every sequence of quotes whose rates Go can hold: a tick
    whose quote is unavailable is skipped and never stops the loop.  The
    buffer then holds the most recent [floor (window / interval)] samples of
    the quotes that carried the currency, in their order, and the
    configuration is as before. *)
Theorem Run_skips_failed_refreshes (opts : list Option) (ticks : list Quote) :
  Forall exported opts ->
  0 < frequency (New opts) <= window ->
  Forall representable (samples (currency (New opts)) ticks) ->
  exists ra' out,
    Run (New opts) ticks = Returned (ra', out) /\
    rates ra' = last_n (capacity (frequency (New opts)))
                  (samples (currency (New opts)) ticks) /\
    frequency ra' = frequency (New opts) /\
    currency ra' = currency (New opts).
Proof.
  intros Hopts Hf Hs. destruct (New_fresh opts Hopts) as [Hfresh _].
  destruct (Run_loop_returns ticks (New opts)) as (ra' & out & E).
  { exact Hf. }
  { rewrite Hfresh. constructor. }
  { exact Hs. }
  destruct (Run_loop_returned ticks (New opts) [] ra' out) as (E1 & E2 & E3 & _).
  { exact Hf. }
  { rewrite Hfresh. reflexivity. }
  { exact E. }
  exists ra', out. unfold rate.Run.
  destruct (Z.leb_spec (frequency (New opts)) 0); [lia|]. auto.
Qed.

(** X6: [Run] reports every tick: with a logger that does not discard its
    entries it writes exactly one entry for each tick, at the error level
    when the quote was unavailable and at the debug level when the sample
    was taken; a logger from [zap.NewNop] writes nothing. *)
Theorem Run_logs_every_tick (opts : list Option) (ticks : list Quote) ra' out :
  Forall exported opts ->
  0 < frequency (New opts) <= window ->
  Run (New opts) ticks = Returned (ra', out) ->
  (zap.nop (log (New opts)) = false ->
     zap.level <$> out = tick_level (currency (New opts)) <$> ticks) /\
  (zap.nop (log (New opts)) = true -> out = []).
Proof.
  intros Hopts Hf Hrun. destruct (New_fresh opts Hopts) as [Hfresh _].
  unfold rate.Run in Hrun.
  destruct (Z.leb_spec (frequency (New opts)) 0); [lia|].
  destruct (Run_loop_returned ticks (New opts) [] ra' out) as (_ & _ & _ & _ & E5).
  { exact Hf. }
  { rewrite Hfresh. reflexivity. }
  { exact Hrun. }
  split; intros Hnop; rewrite Hnop in E5; [exact E5|].
  destruct out; [reflexivity | discriminate].
Qed.

End Averager.

(** Options that leave a field alone leave it alone together. *)
Lemma options_keep_frequency (opts : list Option) (a : Averager) :
  Forall keeps_frequency opts ->
  frequency (foldl (fun a opt => opt a) a opts) = frequency a.
Proof.
  intros H. revert a. induction H as [|o opts Ho _ IH]; intros a; cbn [foldl];
    [reflexivity|].
  rewrite IH. destruct Ho as [[c ->]|[l ->]]; reflexivity.
Qed.

Lemma options_keep_currency (opts : list Option) (a : Averager) :
  Forall keeps_currency opts ->
  currency (foldl (fun a opt => opt a) a opts) = currency a.
Proof.
  intros H. revert a. induction H as [|o opts Ho _ IH]; intros a; cbn [foldl];
    [reflexivity|].
  rewrite IH. destruct Ho as [[f ->]|[l ->]]; reflexivity.
Qed.

Lemma options_keep_log (opts : list Option) (a : Averager) :
  Forall keeps_log opts ->
  log (foldl (fun a opt => opt a) a opts) = log a.
Proof.
  intros H. revert a. induction H as [|o opts Ho _ IH]; intros a; cbn [foldl];
    [reflexivity|].
  rewrite IH. destruct Ho as [[c ->]|[f ->]]; reflexivity.
Qed.

(** X7: [New] applies its options from left to right: for the currency, the
    frequency and the logger alike, the last option that sets the field
    decides it, whatever options for other fields come before or after it,
    and a field that no option sets has its default: [usd], five minutes,
    the logger that discards everything. *)
Theorem New_takes_the_last_option_of_each_kind :
  (forall opts opts' c,
     Forall keeps_currency opts' ->
     currency (New (opts ++ WithCurrency c :: opts')) = c) /\
  (forall opts opts' f,
     Forall keeps_frequency opts' ->
     frequency (New (opts ++ WithFrequency f :: opts')) = f) /\
  (forall opts opts' l,
     Forall keeps_log opts' ->
     log (New (opts ++ WithLogger l :: opts')) = l) /\
  (forall opts, Forall keeps_currency opts -> currency (New opts) = "usd"%string) /\
  (forall opts, Forall keeps_frequency opts -> frequency (New opts) = 5 * time.Minute) /\
  (forall opts, Forall keeps_log opts -> log (New opts) = zap.NewNop).
Proof.
  unfold New. repeat split; intros.
  - rewrite foldl_app. cbn [foldl]. rewrite options_keep_currency by assumption.
    reflexivity.
  - rewrite foldl_app. cbn [foldl]. rewrite options_keep_frequency by assumption.
    reflexivity.
  - rewrite foldl_app. cbn [foldl]. rewrite options_keep_log by assumption.
    reflexivity.
  - rewrite options_keep_currency by assumption. reflexivity.
  - rewrite options_keep_frequency by assumption. reflexivity.
  - rewrite options_keep_log by assumption. reflexivity.
Qed.

Import examples.

(** X1 on an averager that samples once a day. *)
Lemma first_refresh_by_interval_witness :
  Forall exported daily /\
  rate.getExchangeRate numeral (currency (New daily)) (usd (milli 4)) = (milli 4, None) /\
  representable (milli 4) /\
  0 < frequency (New daily) <= window /\
  exists ra' out,
    rate.Update numeral (New daily) (usd (milli 4)) = Returned (ra', (milli 4, None), out) /\
    rates ra' = [milli 4] /\ average ra' = rounded_mean [milli 4].
Proof.
  assert (H1 : Forall exported daily) by repeat constructor.
  assert (H2 : rate.getExchangeRate numeral (currency (New daily)) (usd (milli 4))
               = (milli 4, None)) by (vm_compute; reflexivity).
  assert (Hx : representable (milli 4)) by (vm_compute; split; discriminate).
  assert (H3 : 0 < frequency (New daily) <= window)
    by (split; [reflexivity | vm_compute; discriminate]).
  refine (conj H1 (conj H2 (conj Hx (conj H3 _)))).
  exact (proj2 (proj2 (first_refresh_by_interval numeral daily (usd (milli 4)) (milli 4)
                         H1 H2 Hx)) H3).
Defined.

(** X2 on the first refresh of a new averager. *)
Lemma Update_returns_the_sample_witness :
  let ra' := mkAverager zap.NewNop "usd" (5 * time.Minute) [milli 4]
               (decimal.New 40000000000000 (-16)) in
  rate.Update numeral (New []) (usd (milli 4)) = Returned (ra', (milli 4, None), []) /\
  (exists v, quoted (usd (milli 4)) !! currency (New []) = Some v /\ milli 4 = numeral v) /\
  last (rates ra') = Some (milli 4) /\
  (rates ra' = rates (New []) ++ [milli 4] \/
   rates ra' = drop 1 (rates (New []) ++ [milli 4])) /\
  currency ra' = currency (New []) /\ frequency ra' = frequency (New []) /\
  log ra' = log (New []).
Proof.
  intros ra'.
  assert (H : rate.Update numeral (New []) (usd (milli 4))
              = Returned (ra', (milli 4, None), [])) by (vm_compute; reflexivity).
  refine (conj H _).
  exact (proj1 (Update_returns_the_sample numeral (New []) (usd (milli 4)) ra'
                  (milli 4) None [] H) eq_refl).
Defined.

(** X3 on the first refresh of a new averager. *)
Lemma cached_average_is_close_to_the_mean_witness :
  let ra' := mkAverager zap.NewNop "usd" (5 * time.Minute) [milli 4]
               (decimal.New 40000000000000 (-16)) in
  let res := (milli 4, @None error) in
  rate.Update numeral (New []) (usd (milli 4)) = Returned (ra', res, []) /\
  succeeded res /\
  (Qabs (toQ (average ra') - mean (rates ra')) <= 1 # 20000000000000000)%Q.
Proof.
  intros ra' res.
  assert (H1 : rate.Update numeral (New []) (usd (milli 4)) = Returned (ra', res, []))
    by (vm_compute; reflexivity).
  assert (H2 : succeeded res) by reflexivity.
  refine (conj H1 (conj H2 _)).
  exact (cached_average_is_close_to_the_mean numeral (New []) (usd (milli 4))
           ra' res [] H1 H2).
Defined.

(** X4 on a refresh that fails followed by one that succeeds. *)
Lemma Rate_is_the_rounded_mean_of_the_buffer_witness :
  let ra := mkAverager zap.NewNop "usd" (24 * time.Hour) [milli 4]
              (decimal.New 40000000000000 (-16)) in
  let ress := [(Zero, Some (Wrapf "failed to get exchange rate: %w" []
                              (Opaque "connection refused")));
               (milli 4, None)] in
  Forall exported daily /\
  rate.Updates numeral (New daily) [unreachable; usd (milli 4)] = Returned (ra, ress) /\
  Exists succeeded ress /\
  rates ra <> [] /\ Rate ra = rounded_mean (rates ra).
Proof.
  intros ra ress.
  assert (H1 : Forall exported daily) by repeat constructor.
  assert (H2 : rate.Updates numeral (New daily) [unreachable; usd (milli 4)]
               = Returned (ra, ress)) by (vm_compute; reflexivity).
  assert (H3 : Exists succeeded ress) by (right; left; reflexivity).
  refine (conj H1 (conj H2 (conj H3 _))).
  exact (proj2 (Rate_is_the_rounded_mean_of_the_buffer numeral daily _ ra ress H1 H2) H3).
Defined.

(** X5 on four ticks of which the second finds the service unreachable:
    of the three samples the last two are kept. *)
Lemma Run_skips_failed_refreshes_witness :
  Forall exported daily /\
  0 < frequency (New daily) <= window /\
  Forall representable
    (terms.samples numeral (currency (New daily))
       [usd (milli 1); unreachable; usd (milli 2); usd (milli 3)]) /\
  exists ra' out,
    rate.Run numeral (New daily)
      [usd (milli 1); unreachable; usd (milli 2); usd (milli 3)] = Returned (ra', out) /\
    rates ra' = last_n (capacity (frequency (New daily)))
                  (terms.samples numeral (currency (New daily))
                     [usd (milli 1); unreachable; usd (milli 2); usd (milli 3)]) /\
    frequency ra' = frequency (New daily) /\
    currency ra' = currency (New daily).
Proof.
  assert (H1 : Forall exported daily) by repeat constructor.
  assert (H2 : 0 < frequency (New daily) <= window)
    by (split; [reflexivity | vm_compute; discriminate]).
  assert (H3 : Forall representable
                 (terms.samples numeral (currency (New daily))
                    [usd (milli 1); unreachable; usd (milli 2); usd (milli 3)]))
    by (repeat constructor; vm_compute; discriminate).
  refine (conj H1 (conj H2 (conj H3 _))).
  exact (Run_skips_failed_refreshes numeral daily _ H1 H2 H3).
Defined.

(** X6 on the same four ticks with a logger that keeps its entries. *)
Lemma Run_logs_every_tick_witness :
  let opts := [WithFrequency (24 * time.Hour); WithLogger console] in
  let ticks := [usd (milli 1); unreachable; usd (milli 2); usd (milli 3)] in
  exists ra' out,
    Forall exported opts /\
    0 < frequency (New opts) <= window /\
    rate.Run numeral (New opts) ticks = Returned (ra', out) /\
    zap.nop (log (New opts)) = false /\
    zap.level <$> out = [zap.DebugLevel; zap.ErrorLevel; zap.DebugLevel; zap.DebugLevel].
Proof.
  intros opts ticks.
  assert (H1 : Forall exported opts) by repeat constructor.
  assert (H2 : 0 < frequency (New opts) <= window)
    by (split; [reflexivity | vm_compute; discriminate]).
  assert (H3 : exists p, rate.Run numeral (New opts) ticks = Returned p)
    by (eexists; vm_compute; reflexivity).
  destruct H3 as [[ra' out] H3].
  assert (H4 : zap.nop (log (New opts)) = false) by reflexivity.
  exists ra', out.
  refine (conj H1 (conj H2 (conj H3 (conj H4 _)))).
  exact (proj1 (Run_logs_every_tick numeral opts ticks ra' out H1 H2 H3) H4).
Defined.

(** X7 on a frequency set twice and followed by a currency. *)
Lemma New_takes_the_last_option_of_each_kind_witness :
  Forall keeps_frequency [WithCurrency "eur"] /\
  frequency (New ([WithFrequency time.Hour]
                    ++ WithFrequency (24 * time.Hour) :: [WithCurrency "eur"]))
  = 24 * time.Hour.
Proof.
  assert (H : Forall keeps_frequency [WithCurrency "eur"]).
  { constructor; [|constructor]. left. exists "eur"%string. reflexivity. }
  refine (conj H _).
  exact (proj1 (proj2 New_takes_the_last_option_of_each_kind)
           [WithFrequency time.Hour] [WithCurrency "eur"] (24 * time.Hour) H).
Defined.

End rate_more.

(** ** More on the update round and the turns of the loop *)

Module hpind_more.
Import decimal types spec terms decimal_facts rounding_facts currency_facts.
Import hpind hpind_facts.

Lemma sent_app (evs evs' : list event) : sent (evs ++ evs') = sent evs ++ sent evs'.
Proof.
  induction evs as [|[h s|e] evs IH]; cbn [app sent]; [reflexivity| |assumption].
  rewrite IH. reflexivity.
Qed.

Lemma sent_logs (es : list zap.Entry) : sent (map Log es) = [].
Proof. induction es; [reflexivity | assumption]. Qed.

Lemma logged_app (evs evs' : list event) :
  logged (evs ++ evs') = logged evs ++ logged evs'.
Proof.
  induction evs as [|[h s|e] evs IH]; cbn [app logged]; [reflexivity|assumption|].
  rewrite IH. reflexivity.
Qed.

Lemma logged_logs (es : list zap.Entry) : logged (map Log es) = es.
Proof. induction es as [|e es IH]; [reflexivity|]. cbn. rewrite IH. reflexivity. Qed.

Lemma called_sent (evs : list event) : called evs = (sent evs).*1.
Proof.
  induction evs as [|[h s|e] evs IH]; cbn [called sent fmap list_fmap];
    [reflexivity| |assumption].
  rewrite IH. reflexivity.
Qed.

(** The test of the threshold over the rationals, when the product of the
    baseline and the threshold can be formed. *)
Lemma isOverThreshold_toQ (a b percentage : Decimal) :
  int32 (exp a + exp percentage) ->
  isOverThreshold a b percentage = Returned true <->
  (toQ a * toQ percentage < Qabs (toQ a - toQ b))%Q.
Proof.
  intros Hfit.
  destruct (isOverThreshold_fits a b percentage Hfit) as (over & -> & Hiff).
  rewrite <- Hiff. split; [intros [= ->]; reflexivity | intros ->; reflexivity].
Qed.

Lemma isOverThreshold_false (a b percentage : Decimal) :
  int32 (exp a + exp percentage) ->
  isOverThreshold a b percentage = Returned false <->
  (Qabs (toQ a - toQ b) <= toQ a * toQ percentage)%Q.
Proof.
  intros Hfit.
  destruct (isOverThreshold_fits a b percentage Hfit) as (over & -> & Hiff).
  split.
  - intros [= ->]. apply Qnot_lt_le. intros H. apply Hiff in H. discriminate.
  - intros H. destruct over; [|reflexivity].
    exfalso. exact (Qle_not_lt _ _ H (proj1 Hiff eq_refl)).
Qed.

(** A decision that returns has formed that product. *)
Lemma isOverThreshold_Returned (a b percentage : Decimal) (over : bool) :
  isOverThreshold a b percentage = Returned over -> int32 (exp a + exp percentage).
Proof.
  intros H. destruct (int32_dec (exp a + exp percentage)) as [F|F]; [exact F|].
  rewrite isOverThreshold_overflow in H by assumption. discriminate.
Qed.


(** In the loop over the hosts every call carries the settings it is given
    and the hosts called are the head of the list. *)
Lemma updateHosts_loop_sent (api : API) (log : zap.Logger) (s : Settings)
    (hosts : list Host) :
  sent (updateHosts_loop api log s hosts).2
    = (fun h => (h, s)) <$> called (updateHosts_loop api log s hosts).2 /\
  called (updateHosts_loop api log s hosts).2 `prefix_of` hosts.
Proof.
  induction hosts as [|h hosts [IH1 IH2]]; cbn [updateHosts_loop].
  - split; [reflexivity | apply prefix_nil].
  - destruct (api h s) as [cause|].
    + cbn. split; [reflexivity|]. apply prefix_cons, prefix_nil.
    + destruct (updateHosts_loop api log s hosts) as [res evs]. cbn [fst snd] in *.
      cbn [sent called]. rewrite sent_app, sent_logs, called_app, called_logs.
      cbn [app fmap list_fmap]. rewrite IH1.
      split; [reflexivity | apply prefix_cons, IH2].
Qed.

(** X9: every call of a round sends the same three prices, the ones
    converted from the targets at the rate the round was given; the hosts
    called are the head of the list, in its order; and a round over no host
    at all still converts the prices, and then returns no error and calls
    nobody. *)
Theorem updateHosts_sends_the_same_prices_in_list_order
    (api : API) (hosts : list Host) (target : Prices) (rate : Decimal)
    (log : zap.Logger) res evs :
  updateHosts api hosts target rate log = Returned (res, evs) ->
  exists s,
    target_settings target rate = Returned s /\
    sent evs = (fun h => (h, s)) <$> called evs /\
    called evs `prefix_of` hosts /\
    (hosts = [] -> res = None /\ evs = []).
Proof.
  rewrite updateHosts_rounds.
  destruct (target_settings target rate) as [s|]; [|discriminate].
  cbn [mbind exec_bind]. intros [= Hrun]. exists s. split; [reflexivity|].
  destruct (updateHosts_loop_sent api (round_logger log rate s) s hosts) as [E1 E2].
  rewrite Hrun in E1, E2. cbn [snd] in *. repeat split; auto.
  - subst hosts. cbn in Hrun. congruence.
  - subst hosts. cbn in Hrun. congruence.
Qed.

(** The entries of the loop over the hosts: one for each host updated. *)
Lemma updateHosts_loop_logged (api : API) (log : zap.Logger) (s : Settings)
    (hosts : list Host) :
  exists updated failed,
    called (updateHosts_loop api log s hosts).2 = updated ++ failed /\
    Forall (fun h => api h s = None) updated /\
    ((updateHosts_loop api log s hosts).1 = None -> failed = []) /\
    (forall e, (updateHosts_loop api log s hosts).1 = Some e ->
       exists h cause, failed = [h] /\ api h s = Some cause /\ e = host_failure h cause) /\
    logged (updateHosts_loop api log s hosts).2 =
      updated ≫= (fun h => zap.write log zap.DebugLevel "updated host"
                             [zap.String_ "host" (Address h)]).
Proof.
  induction hosts as [|h hosts (updated & failed & E & Hok & Hnone & Hsome & L)];
    cbn [updateHosts_loop].
  - exists [], []. cbn. repeat split; auto. intros e [=].
  - destruct (api h s) as [cause|] eqn:Hh.
    + exists [], [h]. cbn. repeat split; auto; [intros [=]|].
      intros e [= <-]. eauto.
    + destruct (updateHosts_loop api log s hosts) as [res evs]. cbn [fst snd] in *.
      exists (h :: updated), failed. cbn [called logged].
      rewrite called_app, called_logs, logged_app, logged_logs, E, L.
      repeat split; auto.
Qed.

(** X10: a round writes one debug entry for every host it has updated, in
    the order of the calls, naming the address of the host, and none for
    the host whose call failed; with a logger that discards its entries it
    writes none at all.  The hosts called are the hosts updated, followed
    by the one that failed if the round returns an error. *)
Theorem updateHosts_logs_the_hosts_it_updated
    (api : API) (hosts : list Host) (target : Prices) (rate : Decimal)
    (log : zap.Logger) res evs :
  updateHosts api hosts target rate log = Returned (res, evs) ->
  exists s updated failed,
    target_settings target rate = Returned s /\
    called evs = updated ++ failed /\
    Forall (fun h => api h s = None) updated /\
    (res = None -> failed = []) /\
    (forall e, res = Some e ->
       exists h cause, failed = [h] /\ api h s = Some cause /\ e = host_failure h cause) /\
    logged evs =
      updated ≫= (fun h => zap.write (round_logger log rate s) zap.DebugLevel
                             "updated host" [zap.String_ "host" (Address h)]).
Proof.
  rewrite updateHosts_rounds.
  destruct (target_settings target rate) as [s|]; [|discriminate].
  cbn [mbind exec_bind]. intros [= Hrun].
  destruct (updateHosts_loop_logged api (round_logger log rate s) s hosts)
    as (updated & failed & H). rewrite Hrun in H. cbn [fst snd] in H.
  exists s, updated, failed. split; [reflexivity | exact H].
Qed.

(** X11: a turn whose snapshot is within the threshold of the baseline
    (their product being a decimal: the sum of the two exponents fits an
    [int32]) does nothing but log that it skips the update: the baseline
    stays, no price is converted, so the turn cannot panic, and no host is
    called. *)
Theorem tick_within_the_threshold_does_nothing
    (cfg : Config) (logger : zap.Logger) (api : API) (lastRate average : Decimal) :
  int32 (exp lastRate + exp (Threshold cfg)) ->
  (Qabs (toQ lastRate - toQ average) <= toQ lastRate * toQ (Threshold cfg))%Q ->
  exists evs,
    tick cfg logger api lastRate average = Returned (lastRate, evs) /\
    sent evs = [] /\
    logged evs = zap.write logger zap.DebugLevel "skipping update"
                   [zap.StringerDecimal "old" lastRate;
                    zap.StringerDecimal "new" average].
Proof.
  intros Hfit H. apply isOverThreshold_false in H; [|exact Hfit].
  unfold tick. rewrite H. cbn [mbind exec_bind negb].
  eexists. split; [reflexivity|]. rewrite sent_logs, logged_logs. auto.
Qed.

(** What a turn that comes back has done. *)
Lemma tick_cases (cfg : Config) (logger : zap.Logger) (api : API)
    (lastRate average lastRate' : Decimal) evs :
  tick cfg logger api lastRate average = Returned (lastRate', evs) ->
  (isOverThreshold lastRate average (Threshold cfg) = Returned false /\
   lastRate' = lastRate /\ sent evs = []) \/
  (isOverThreshold lastRate average (Threshold cfg) = Returned true /\
   lastRate' = average /\
   exists s, target_settings (Prices_ cfg) average = Returned s /\
             sent evs = (fun h => (h, s)) <$> called evs /\
             called evs `prefix_of` Hosts cfg).
Proof.
  unfold tick.
  destruct (isOverThreshold lastRate average (Threshold cfg)) as [[|]|];
    cbn [mbind exec_bind negb]; [| |discriminate].
  - intros Hrun. right. split; [reflexivity|].
    rewrite updateHosts_rounds in Hrun.
    destruct (target_settings (Prices_ cfg) average) as [s|]; [|discriminate].
    cbn [mbind exec_bind] in Hrun.
    destruct (updateHosts_loop_sent api (round_logger logger average s) s (Hosts cfg))
      as [E1 E2].
    destruct (updateHosts_loop _ _ _ _) as [[err|] evs0]; cbn [snd] in *;
      injection Hrun as <- <-; (split; [reflexivity|]); exists s;
      (split; [reflexivity|]).
    + rewrite sent_app, sent_logs, called_app, called_logs, !app_nil_r. auto.
    + auto.
  - intros [= <- <-]. left. rewrite sent_logs. auto.
Qed.

(** X12: a turn is idempotent on its snapshot: after a turn that came back,
    whether it acted or not, a second turn with the same snapshot finds it
    within the threshold of the baseline and calls no host, whatever the
    hosts would answer (for a snapshot and a threshold whose product is a
    decimal, the sum of their exponents fitting an [int32], and is not
    negative). *)
Theorem tick_again_with_the_same_snapshot_does_nothing
    (cfg : Config) (logger : zap.Logger) (api api' : API)
    (lastRate average lastRate' : Decimal) evs :
  int32 (exp average + exp (Threshold cfg)) ->
  (0 <= toQ average * toQ (Threshold cfg))%Q ->
  tick cfg logger api lastRate average = Returned (lastRate', evs) ->
  exists evs',
    tick cfg logger api' lastRate' average = Returned (lastRate', evs') /\
    sent evs' = [].
Proof.
  intros Hfit Hpos Hrun.
  assert (H : isOverThreshold lastRate' average (Threshold cfg) = Returned false).
  { destruct (tick_cases _ _ _ _ _ _ _ Hrun) as [(T & -> & _)|(T & -> & _)].
    - exact T.
    - apply isOverThreshold_false; [exact Hfit|].
      assert (toQ average - toQ average == 0)%Q as -> by ring. exact Hpos. }
  unfold tick. rewrite H. cbn [mbind exec_bind negb]. eexists. split; [reflexivity|].
  apply sent_logs.
Qed.

(** X13: over any number of turns the baseline is only ever replaced by a
    snapshot: at the end it is the baseline the loop started with or one of
    the snapshots; and every call made to a host, a host of the
    configuration, sent the prices converted at one of the snapshots. *)
Theorem loop_acts_on_snapshots_only
    (cfg : Config) (logger : zap.Logger) (lastRate : Decimal)
    (ticks : list (Decimal * API)) lastRate' evs :
  loop cfg logger lastRate ticks = Returned (lastRate', evs) ->
  (lastRate' = lastRate \/ In lastRate' ticks.*1) /\
  Forall (fun hs =>
            In hs.1 (Hosts cfg) /\
            exists average, In average ticks.*1 /\
                            target_settings (Prices_ cfg) average = Returned hs.2)
         (sent evs).
Proof.
  revert lastRate lastRate' evs.
  induction ticks as [|[average api] ticks IH]; intros lastRate lastRate' evs Hrun;
    cbn [loop] in Hrun.
  - injection Hrun as <- <-. split; [auto | constructor].
  - destruct (tick cfg logger api lastRate average) as [[b1 evs1]|] eqn:Ht;
      cbn [mbind exec_bind] in Hrun; [|discriminate].
    destruct (loop cfg logger b1 ticks) as [[b2 evs2]|] eqn:Hl;
      cbn [mbind exec_bind] in Hrun; [|discriminate].
    injection Hrun as <- <-.
    destruct (IH _ _ _ Hl) as [Hb Hs]. cbn [fmap list_fmap fst].
    rewrite sent_app, Forall_app.
    assert (Hs' : Forall (fun hs =>
               In hs.1 (Hosts cfg) /\
               exists average0, In average0 (average :: ticks.*1) /\
                 target_settings (Prices_ cfg) average0 = Returned hs.2) (sent evs2)).
    { eapply Forall_impl; [exact Hs|]. intros hs (Hin & a & Ha & Hts).
      split; [exact Hin|]. exists a. split; [right; exact Ha | exact Hts]. }
    destruct (tick_cases _ _ _ _ _ _ _ Ht) as [(_ & -> & E)|(_ & -> & s & Hts & E & P)].
    + rewrite E. repeat split; [|constructor|exact Hs'].
      destruct Hb as [->|Hb]; [left; reflexivity | right; right; exact Hb].
    + repeat split; [| |exact Hs'].
      * destruct Hb as [->|Hb]; [right; left; reflexivity | right; right; exact Hb].
      * rewrite E. apply Forall_fmap, Forall_forall. intros h Hh. cbn [fst snd].
        split.
        -- destruct P as [k ->]. apply list_elem_of_In, elem_of_app. left. exact Hh.
        -- exists average. split; [left; reflexivity | exact Hts].
Qed.

(** X14: the test at its edges, for a baseline and a threshold whose
    product is a decimal (the sum of their exponents fits an [int32]).  On
    a baseline of zero it fires exactly when the snapshot is not zero; with
    a threshold of zero it fires exactly when the snapshot differs from the
    baseline; when baseline times threshold is negative it always fires;
    and with a threshold of one or more a snapshot between zero and the
    baseline never fires, so no fall of the rate triggers an update. *)
Theorem isOverThreshold_at_the_edges (a b percentage : Decimal) :
  int32 (exp a + exp percentage) ->
  ((toQ a == 0)%Q ->
     (isOverThreshold a b percentage = Returned true <-> ~ (toQ b == 0)%Q)) /\
  ((toQ percentage == 0)%Q ->
     (isOverThreshold a b percentage = Returned true <-> ~ (toQ a == toQ b)%Q)) /\
  ((toQ a * toQ percentage < 0)%Q -> isOverThreshold a b percentage = Returned true) /\
  ((0 <= toQ b)%Q -> (toQ b <= toQ a)%Q -> (1 <= toQ percentage)%Q ->
     isOverThreshold a b percentage = Returned false).
Proof.
  intros Hfit.
  rewrite isOverThreshold_toQ, isOverThreshold_false by exact Hfit.
  generalize (toQ a) (toQ b) (toQ percentage). intros x y t.
  split; [|split; [|split]].
  - intros Hx. rewrite Hx. split.
    + intros H Hy. rewrite Hy in H. revert H. apply Qabs_case; intros; lra.
    + intros Hy. destruct (Q_dec y 0) as [[L|G]|E]; [| |contradiction];
        apply Qabs_case; intros; lra.
  - intros Ht. rewrite Ht. split.
    + intros H E. rewrite E in H. revert H. apply Qabs_case; intros; lra.
    + intros E. destruct (Q_dec x y) as [[L|G]|E']; [| |contradiction];
        apply Qabs_case; intros; lra.
  - intros H. eapply Qlt_le_trans; [exact H | apply Qabs_nonneg].
  - intros Hy Hxy Ht. apply Qabs_case; intros; nra.
Qed.

(** A currency [convertToCurrency] returns is the amount. *)
Lemma convertToCurrency_Returned (target rate : Decimal) (c : Currency) :
  convertToCurrency target rate = Returned c ->
  value rate <> 0 /\ Big c = hastings target rate.
Proof.
  intros Hc. destruct (Z.eq_dec (value rate) 0) as [E|NE].
  - rewrite convertToCurrency_zero_rate in Hc by assumption. discriminate.
  - split; [exact NE|].
    destruct (int32_dec (quotient_scale target rate)) as [Hs|Hs].
    + rewrite convertToCurrency_amount in Hc by assumption.
      destruct (Z.ltb_spec (hastings target rate) 0); [discriminate|].
      destruct (Z.leb_spec (2 ^ 128) (hastings target rate)); [discriminate|].
      injection Hc as <-. apply Big_of_Big. lia.
    + rewrite convertToCurrency_overflow in Hc by assumption. discriminate.
Qed.

(** Rounding a number that is not negative is rounding down its sum with a
    half, so it keeps the order. *)
Lemma round_half_away_floor (x : Q) :
  (0 <= x)%Q -> round_half_away x = Qfloor (x + (1 # 2)).
Proof.
  destruct x as [n d]. unfold Qle; cbn [Qnum Qden]. intros Hn.
  rewrite round_half_away_frac. unfold Qfloor, Qplus; cbn [Qnum Qden].
  replace (n * 2 + 1 * Z.pos d) with (2 * Z.abs n + Z.pos d) by lia.
  replace (Z.pos (d * 2)) with (2 * Z.pos d) by lia.
  destruct n as [|p|p]; [|cbv [Z.sgn]; lia|lia].
  cbv [Z.sgn Z.abs]. rewrite Z.div_small by lia. reflexivity.
Qed.

Lemma round_half_away_mono (x y : Q) :
  (0 <= x)%Q -> (x <= y)%Q -> round_half_away x <= round_half_away y.
Proof.
  intros Hx Hxy. rewrite !round_half_away_floor by lra.
  apply Qfloor_resp_le. lra.
Qed.

(** X18: the conversion keeps the order of the prices: for targets that
    are not negative and positive rates, a target at least as high at a
    rate at most as high converts to at least as many hastings. *)
Theorem convertToCurrency_is_monotone (t1 t2 r1 r2 : Decimal) (c1 c2 : Currency) :
  (0 <= toQ t1)%Q -> (toQ t1 <= toQ t2)%Q ->
  (0 < toQ r2)%Q -> (toQ r2 <= toQ r1)%Q ->
  convertToCurrency t1 r1 = Returned c1 ->
  convertToCurrency t2 r2 = Returned c2 ->
  Big c1 <= Big c2.
Proof.
  intros Ht1 Ht Hr2 Hr H1 H2.
  destruct (convertToCurrency_Returned _ _ _ H1) as [_ ->].
  destruct (convertToCurrency_Returned _ _ _ H2) as [_ ->].
  unfold hastings. apply Z.mul_le_mono_nonneg_r; [lia|].
  assert (Hr1 : (0 < toQ r1)%Q) by lra.
  assert (Hq1 : (0 <= toQ t1 / toQ r1)%Q).
  { apply Qmult_le_0_compat; [exact Ht1|]. apply Qinv_le_0_compat. lra. }
  assert (Hq : (toQ t1 / toQ r1 <= toQ t2 / toQ r2)%Q).
  { apply Qle_shift_div_l; [exact Hr2|].
    apply Qle_trans with (toQ t1 / toQ r1 * toQ r1)%Q.
    - apply Qmult_le_compat_nonneg; split; lra.
    - assert (toQ t1 / toQ r1 * toQ r1 == toQ t1)%Q as -> by (field; lra).
      exact Ht. }
  pose proof (pow10_pos 16) as P.
  apply round_half_away_mono.
  - apply Qmult_le_0_compat; lra.
  - apply Qmult_le_compat_r; lra.
Qed.

Import examples.

(** X18 on the default prices for ingress and storage at two rates. *)
Lemma convertToCurrency_is_monotone_witness :
  exists c1 c2,
    (0 <= toQ (New 1 (-1)))%Q /\ (toQ (New 1 (-1)) <= toQ (New 1 0))%Q /\
    (0 < toQ (milli 5))%Q /\ (toQ (milli 5) <= toQ (milli 6))%Q /\
    convertToCurrency (New 1 (-1)) (milli 6) = Returned c1 /\
    convertToCurrency (New 1 0) (milli 5) = Returned c2 /\
    Big c1 <= Big c2.
Proof.
  assert (H1 : (0 <= toQ (New 1 (-1)))%Q) by (vm_compute; discriminate).
  assert (H2 : (toQ (New 1 (-1)) <= toQ (New 1 0))%Q) by (vm_compute; discriminate).
  assert (H3 : (0 < toQ (milli 5))%Q) by reflexivity.
  assert (H4 : (toQ (milli 5) <= toQ (milli 6))%Q) by (vm_compute; discriminate).
  assert (H5 : exists c, convertToCurrency (New 1 (-1)) (milli 6) = Returned c)
    by (eexists; vm_compute; reflexivity).
  assert (H6 : exists c, convertToCurrency (New 1 0) (milli 5) = Returned c)
    by (eexists; vm_compute; reflexivity).
  destruct H5 as [c1 H5]. destruct H6 as [c2 H6]. exists c1, c2.
  refine (conj H1 (conj H2 (conj H3 (conj H4 (conj H5 (conj H6 _)))))).
  exact (convertToCurrency_is_monotone _ _ _ _ c1 c2 H1 H2 H3 H4 H5 H6).
Defined.


(** X9 on two hosts of which the first refuses. *)
Lemma updateHosts_sends_the_same_prices_in_list_order_witness :
  exists res evs,
    updateHosts (down "http://a:9980/api") [hostA; hostB] (Prices_ defaults) (milli 5)
      console = Returned (res, evs) /\
    exists s,
      target_settings (Prices_ defaults) (milli 5) = Returned s /\
      sent evs = (fun h => (h, s)) <$> called evs /\
      called evs `prefix_of` [hostA; hostB] /\
      ([hostA; hostB] = [] -> res = None /\ evs = []).
Proof.
  assert (H : exists p,
             updateHosts (down "http://a:9980/api") [hostA; hostB] (Prices_ defaults)
               (milli 5) console = Returned p) by (eexists; vm_compute; reflexivity).
  destruct H as [[res evs] H]. exists res, evs.
  refine (conj H _).
  exact (updateHosts_sends_the_same_prices_in_list_order _ _ _ _ _ _ _ H).
Defined.

(** X10 on two hosts of which the second refuses. *)
Lemma updateHosts_logs_the_hosts_it_updated_witness :
  exists res evs,
    updateHosts (down "http://b:9980/api") [hostA; hostB] (Prices_ defaults) (milli 5)
      console = Returned (res, evs) /\
    exists s updated failed,
      target_settings (Prices_ defaults) (milli 5) = Returned s /\
      called evs = updated ++ failed /\
      Forall (fun h => down "http://b:9980/api" h s = None) updated /\
      (res = None -> failed = []) /\
      (forall e, res = Some e ->
         exists h cause, failed = [h] /\ down "http://b:9980/api" h s = Some cause /\
                         e = host_failure h cause) /\
      logged evs =
        updated ≫= (fun h => zap.write (round_logger console (milli 5) s) zap.DebugLevel
                               "updated host" [zap.String_ "host" (Address h)]).
Proof.
  assert (H : exists p,
             updateHosts (down "http://b:9980/api") [hostA; hostB] (Prices_ defaults)
               (milli 5) console = Returned p) by (eexists; vm_compute; reflexivity).
  destruct H as [[res evs] H]. exists res, evs.
  refine (conj H _).
  exact (updateHosts_logs_the_hosts_it_updated _ _ _ _ _ _ _ H).
Defined.

(** X11 on a snapshot of 0.051 against a baseline of 0.050. *)
Lemma tick_within_the_threshold_does_nothing_witness :
  int32 (exp (milli 50) + exp (Threshold defaults)) /\
  (Qabs (toQ (milli 50) - toQ (milli 51)) <= toQ (milli 50) * toQ (Threshold defaults))%Q /\
  exists evs,
    tick defaults console all_down (milli 50) (milli 51) = Returned (milli 50, evs) /\
    sent evs = [] /\
    logged evs = zap.write console zap.DebugLevel "skipping update"
                   [zap.StringerDecimal "old" (milli 50);
                    zap.StringerDecimal "new" (milli 51)].
Proof.
  assert (H : (Qabs (toQ (milli 50) - toQ (milli 51))
               <= toQ (milli 50) * toQ (Threshold defaults))%Q)
    by (vm_compute; discriminate).
  assert (H0 : int32 (exp (milli 50) + exp (Threshold defaults)))
    by (vm_compute; split; discriminate).
  refine (conj H0 (conj H _)).
  exact (tick_within_the_threshold_does_nothing defaults console all_down
           (milli 50) (milli 51) H0 H).
Defined.

(** X12 on a turn that acted although every host refused. *)
Lemma tick_again_with_the_same_snapshot_does_nothing_witness :
  exists evs,
    int32 (exp (milli 5) + exp (Threshold defaults)) /\
    (0 <= toQ (milli 5) * toQ (Threshold defaults))%Q /\
    tick defaults console all_down (milli 4) (milli 5) = Returned (milli 5, evs) /\
    exists evs',
      tick defaults console all_up (milli 5) (milli 5) = Returned (milli 5, evs') /\
      sent evs' = [].
Proof.
  assert (H1 : (0 <= toQ (milli 5) * toQ (Threshold defaults))%Q)
    by (vm_compute; discriminate).
  assert (H2 : exists evs, tick defaults console all_down (milli 4) (milli 5)
                           = Returned (milli 5, evs))
    by (eexists; vm_compute; reflexivity).
  destruct H2 as [evs H2]. exists evs.
  assert (H0 : int32 (exp (milli 5) + exp (Threshold defaults)))
    by (vm_compute; split; discriminate).
  refine (conj H0 (conj H1 (conj H2 _))).
  exact (tick_again_with_the_same_snapshot_does_nothing defaults console all_down all_up
           (milli 4) (milli 5) (milli 5) evs H0 H1 H2).
Defined.

(** X13 on three turns of which the second is within the threshold. *)
Lemma loop_acts_on_snapshots_only_witness :
  let ticks := [(milli 5, all_up); (milli 5, all_up); (milli 6, down "http://a:9980/api")] in
  exists lastRate' evs,
    loop defaults console (milli 4) ticks = Returned (lastRate', evs) /\
    (lastRate' = milli 4 \/ In lastRate' ticks.*1) /\
    Forall (fun hs =>
              In hs.1 (Hosts defaults) /\
              exists average, In average ticks.*1 /\
                              target_settings (Prices_ defaults) average = Returned hs.2)
           (sent evs).
Proof.
  intros ticks.
  assert (H : exists p, loop defaults console (milli 4) ticks = Returned p)
    by (eexists; vm_compute; reflexivity).
  destruct H as [[lastRate' evs] H]. exists lastRate', evs.
  refine (conj H _).
  exact (loop_acts_on_snapshots_only defaults console (milli 4) ticks lastRate' evs H).
Defined.

(** X14 on a baseline of zero. *)
Lemma isOverThreshold_at_the_edges_witness :
  int32 (exp (New 0 0) + exp (New 1 (-1))) /\
  (toQ (New 0 0) == 0)%Q /\
  (isOverThreshold (New 0 0) (milli 5) (New 1 (-1)) = Returned true
   <-> ~ (toQ (milli 5) == 0)%Q).
Proof.
  assert (H0 : int32 (exp (New 0 0) + exp (New 1 (-1))))
    by (vm_compute; split; discriminate).
  assert (H : (toQ (New 0 0) == 0)%Q) by reflexivity.
  refine (conj H0 (conj H _)).
  exact (proj1 (isOverThreshold_at_the_edges (New 0 0) (milli 5) (New 1 (-1)) H0) H).
Defined.

End hpind_more.

(** ** More on main: the start and the two loops together *)

Module main_more.
Import decimal types spec terms decimal_facts rounding_facts currency_facts.
Import hpind hpind_facts hpind_more rate_facts rate_more hpind_main.

Section Main.
Context {float64 : Type} (NewFromFloat : float64 -> Decimal).

Abbreviation getExchangeRate := (rate.getExchangeRate NewFromFloat).
Abbreviation sample := (terms.sample NewFromFloat).
Abbreviation schedule_samples := (terms.schedule_samples NewFromFloat).
Abbreviation startup := (hpind_main.startup NewFromFloat).
Abbreviation steps := (hpind_main.steps NewFromFloat).
Abbreviation run := (hpind_main.run NewFromFloat).

(** The averager [main] creates. *)
Lemma main_averager (cfg : Config) (logger : zap.Logger) :
  let r := rate.New [rate.WithCurrency (Currency_ cfg);
                     rate.WithFrequency (Frequency cfg);
                     rate.WithLogger (zap.Named logger "rate")] in
  Forall rate.exported [rate.WithCurrency (Currency_ cfg);
                        rate.WithFrequency (Frequency cfg);
                        rate.WithLogger (zap.Named logger "rate")] /\
  rate.currency r = Currency_ cfg /\ rate.frequency r = Frequency cfg /\
  rate.rates r = [] /\ rate.log r = zap.Named logger "rate".
Proof. cbv zeta. split; [repeat constructor | repeat split]. Qed.

(** What a start that comes back has done. *)
Lemma startup_returned
    (cfg : Config) (logger : zap.Logger) (sc : rate.Quote) (api : API)
    r lastRate evs :
  startup cfg logger sc api = Returned (r, lastRate, evs) ->
  sample (Currency_ cfg) sc = Some lastRate /\
  0 < Frequency cfg <= window /\
  rate.frequency r = Frequency cfg /\ rate.currency r = Currency_ cfg /\
  rate.rates r = [lastRate] /\ rate.Rate r = rounded_mean [lastRate] /\
  exists s,
    target_settings (Prices_ cfg) lastRate = Returned s /\
    sent evs = (fun h => (h, s)) <$> called evs /\
    called evs `prefix_of` Hosts cfg.
Proof.
  intros Hrun. unfold hpind_main.startup in Hrun.
  destruct (main_averager cfg logger) as (Hopts & Hc & Hf & Hr & Hl).
  set (r0 := rate.New _) in *.
  destruct (rate.Update NewFromFloat r0 sc) as [[[r1 [x err]] out]|] eqn:Hup;
    cbn [mbind exec_bind] in Hrun; [|discriminate].
  destruct err as [err|]; [discriminate|].
  destruct (Update_ends NewFromFloat r0 sc)
    as [y cause G|y G F|y G F B|y buffer G F B NE O|y buffer G F B NE O]; try discriminate.
  injection Hup as <- <- <-.
  rewrite Hr, fifo_push_first in B.
  destruct (Z.leb_spec 1 (Z.quot window (rate.frequency r0))) as [L|L];
    [|subst buffer; contradiction].
  subst buffer.
  assert (Hwin : 0 < Frequency cfg <= window).
  { rewrite <- Hf.
    destruct (Z.lt_trichotomy (rate.frequency r0) 0) as [N|[Z0|P]]; [|contradiction|].
    - pose proof (proj1 (quot_window (rate.frequency r0)) (or_introl N)). lia.
    - destruct (Z.le_gt_cases (rate.frequency r0) window) as [|Hlong]; [lia|].
      pose proof (proj1 (quot_window (rate.frequency r0)) (or_intror Hlong)). lia. }
  rewrite updateHosts_rounds in Hrun.
  destruct (target_settings (Prices_ cfg) y) as [s|] eqn:Hts; [|discriminate].
  cbn [mbind exec_bind] in Hrun.
  destruct (updateHosts_loop_sent api (round_logger logger y s) s (Hosts cfg)) as [E1 E2].
  destruct (updateHosts_loop _ _ _ _) as [err evs0]. cbn [snd] in *.
  injection Hrun as <- <- <-. cbn [rate.frequency rate.currency rate.rates rate.Rate rate.average].
  split; [apply sample_Some; rewrite <- Hc; exact G|].
  repeat split; auto; try lia.
  exists s. split; [exact Hts|].
  rewrite !sent_app, !called_app, sent_logs, called_logs. cbn [app].
  destruct err; rewrite ?sent_logs, ?called_logs, ?app_nil_r; auto.
Qed.


(** X16: when [main] gets past its start, the interval of the
    configuration is positive and at most the window of 48 hours, so the
    ticker of [Run] is given a positive interval; the baseline is the rate
    just observed, which is the one sample of the averager; and the hosts
    of the first round, the head of the list of hosts, were sent the prices
    converted at that rate. *)
Theorem startup_sets_the_baseline_to_the_first_sample
    (cfg : Config) (logger : zap.Logger) (sc : rate.Quote) (api : API)
    r lastRate evs :
  startup cfg logger sc api = Returned (r, lastRate, evs) ->
  sample (Currency_ cfg) sc = Some lastRate /\
  0 < Frequency cfg <= window /\
  rate.frequency r = Frequency cfg /\ rate.currency r = Currency_ cfg /\
  rate.rates r = [lastRate] /\ rate.Rate r = rounded_mean [lastRate] /\
  exists s,
    target_settings (Prices_ cfg) lastRate = Returned s /\
    sent evs = (fun h => (h, s)) <$> called evs /\
    called evs `prefix_of` Hosts cfg.
Proof.
  intros Hrun.
  destruct (startup_returned cfg logger sc api r lastRate evs Hrun)
    as (Hs & Hw & Hf & Hc & Hr & Ha & s & Hts & Hsent & Hpre).
  split; [exact Hs|]. split; [exact Hw|]. repeat split; try assumption.
  exists s. auto.
Qed.

(** The two loops keep the buffer and the average of the averager in step
    with the samples taken, and every price they send was converted at the
    average as it stood after some of these samples. *)
Lemma steps_returned (cfg : Config) (logger : zap.Logger)
    (sched : list hpind_main.step) :
  forall (r : rate.Averager) (hist : list Decimal) (lastRate : Decimal)
         r' lastRate' evs,
    0 < rate.frequency r <= window ->
    rate.rates r = last_n (capacity (rate.frequency r)) hist ->
    rate.average r = rounded_mean (rate.rates r) ->
    steps cfg logger r lastRate sched = Returned (r', lastRate', evs) ->
    rate.rates r' =
      last_n (capacity (rate.frequency r))
        (hist ++ schedule_samples (rate.currency r) sched) /\
    rate.average r' = rounded_mean (rate.rates r') /\
    (lastRate' = lastRate \/
     exists pre,
       pre `prefix_of` schedule_samples (rate.currency r) sched /\
       lastRate' = rounded_mean (last_n (capacity (rate.frequency r)) (hist ++ pre))) /\
    Forall (fun hs =>
              In hs.1 (Hosts cfg) /\
              exists pre,
                pre `prefix_of` schedule_samples (rate.currency r) sched /\
                target_settings (Prices_ cfg)
                  (rounded_mean (last_n (capacity (rate.frequency r)) (hist ++ pre)))
                = Returned hs.2)
           (sent evs).
Proof.
  induction sched as [|[sc|api] sched IH];
    intros r hist lastRate r' lastRate' evs Hf Hr Ha Hrun;
    cbn [hpind_main.steps] in Hrun;
    unfold terms.schedule_samples in *; cbn [omap list_omap].
  - injection Hrun as <- <- <-. rewrite app_nil_r.
    split; [exact Hr|]. split; [exact Ha|]. split; [left; reflexivity | constructor].
  - destruct (quot_window (rate.frequency r)) as [_ Hq]. destruct (Hq Hf) as [Hcap Ecap].
    destruct (Update_ends NewFromFloat r sc)
      as [y cause G|y G F|y G F B|y buffer G F B NE O|y buffer G F B NE O];
      cbn [mbind exec_bind] in Hrun; try discriminate.
    + assert (S : sample (rate.currency r) sc = None) by (apply sample_None; eauto).
      rewrite S.
      destruct (steps cfg logger r lastRate sched) as [[[r2 b2] evs2]|] eqn:Hrest;
        cbn [mbind exec_bind] in Hrun; [|discriminate].
      injection Hrun as <- <- <-. rewrite sent_app, sent_logs. cbn [app].
      exact (IH _ _ _ _ _ _ Hf Hr Ha Hrest).
    + assert (S : sample (rate.currency r) sc = Some y) by (apply sample_Some; exact G).
      rewrite S.
      match type of Hrun with context [hpind_main.steps _ _ _ ?a lastRate sched] =>
        set (r1 := a) in * end.
      destruct (steps cfg logger r1 lastRate sched) as [[[r2 b2] evs2]|] eqn:Hrest;
        cbn [mbind exec_bind] in Hrun; [|discriminate].
      injection Hrun as <- <- <-. rewrite sent_app, sent_logs. cbn [app].
      destruct (IH r1 (hist ++ [y]) lastRate r2 b2 evs2) as (E1 & E2 & E3 & E4).
      { exact Hf. }
      { unfold r1; cbn [rate.rates rate.frequency]. rewrite <- B, Ecap, Hr.
        apply fifo_push_window. lia. }
      { reflexivity. }
      { exact Hrest. }
      unfold r1 in *; cbn [rate.frequency rate.currency] in *.
      rewrite <- app_assoc in E1. cbn [app] in E1.
      split; [exact E1|]. split; [exact E2|]. split.
      * destruct E3 as [->|(pre & Hpre & ->)]; [left; reflexivity|].
        right. exists (y :: pre). split; [apply prefix_cons, Hpre|].
        rewrite <- app_assoc. reflexivity.
      * eapply Forall_impl; [exact E4|]. intros hs (Hin & pre & Hpre & Hts).
        split; [exact Hin|]. exists (y :: pre). split; [apply prefix_cons, Hpre|].
        rewrite <- app_assoc in Hts. exact Hts.
  - destruct (tick cfg logger api lastRate (rate.Rate r)) as [[b1 evs1]|] eqn:Ht;
      cbn [mbind exec_bind] in Hrun; [|discriminate].
    destruct (steps cfg logger r b1 sched) as [[[r2 b2] evs2]|] eqn:Hrest;
      cbn [mbind exec_bind] in Hrun; [|discriminate].
    injection Hrun as <- <- <-.
    destruct (IH _ _ _ _ _ _ Hf Hr Ha Hrest) as (E1 & E2 & E3 & E4).
    split; [exact E1|]. split; [exact E2|]. rewrite sent_app, Forall_app.
    assert (Hnow : rate.Rate r
                   = rounded_mean (last_n (capacity (rate.frequency r)) (hist ++ []))).
    { unfold rate.Rate. rewrite app_nil_r, <- Hr. exact Ha. }
    destruct (tick_cases _ _ _ _ _ _ _ Ht) as [(_ & -> & E)|(_ & -> & s & Hts & E & P)].
    + rewrite E. split; [exact E3|]. split; [constructor | exact E4].
    + split; [|split; [|exact E4]].
      * destruct E3 as [->|E3]; [|right; exact E3].
        right. exists []. split; [apply prefix_nil | exact Hnow].
      * rewrite E. apply Forall_fmap, Forall_forall. intros h Hh. cbn [fst snd].
        split.
        -- destruct P as [k ->]. apply list_elem_of_In, elem_of_app. left. exact Hh.
        -- exists []. split; [apply prefix_nil|]. rewrite <- Hnow. exact Hts.
Qed.

(** X17: from the start to the end of a run of the process, every price
    sent to a host, always a host of the configuration, was converted
    either at the rate observed at the start or at the average the averager
    had cached at some point of the schedule: the rounded mean of the most
    recent [floor (window / interval)] samples among the first sample and
    the samples of a prefix of those the schedule takes.  The baseline is
    likewise the first rate or such an average, and the averager ends with
    the most recent samples of the whole schedule and their rounded mean
    as its average. *)
Theorem run_sends_prices_at_the_first_rate_or_an_average
    (cfg : Config) (logger : zap.Logger) (sc : rate.Quote) (api : API)
    (sched : list hpind_main.step) r' lastRate' evs :
  run cfg logger sc api sched = Returned (r', lastRate', evs) ->
  exists x,
    sample (Currency_ cfg) sc = Some x /\
    rate.rates r' =
      last_n (capacity (Frequency cfg))
        (x :: schedule_samples (Currency_ cfg) sched) /\
    rate.Rate r' = rounded_mean (rate.rates r') /\
    (lastRate' = x \/
     exists pre,
       pre `prefix_of` schedule_samples (Currency_ cfg) sched /\
       lastRate' = rounded_mean (last_n (capacity (Frequency cfg)) (x :: pre))) /\
    Forall (fun hs =>
              In hs.1 (Hosts cfg) /\
              (target_settings (Prices_ cfg) x = Returned hs.2 \/
               exists pre,
                 pre `prefix_of` schedule_samples (Currency_ cfg) sched /\
                 target_settings (Prices_ cfg)
                   (rounded_mean (last_n (capacity (Frequency cfg)) (x :: pre)))
                 = Returned hs.2))
           (sent evs).
Proof.
  intros Hrun. unfold hpind_main.run in Hrun.
  destruct (startup cfg logger sc api) as [[[r0 b0] evs0]|] eqn:Hstart;
    cbn [mbind exec_bind] in Hrun; [|discriminate].
  destruct (startup_returned _ _ _ _ _ _ _ Hstart)
    as (Hs & Hw & Hf & Hc & Hr & Ha & s & Hts & Hsent & Hpre).
  destruct (rate.frequency r0 <=? 0); [discriminate|].
  destruct (steps cfg logger r0 b0 sched) as [[[r1 b1] evs1]|] eqn:Hsteps;
    cbn [mbind exec_bind] in Hrun; [|discriminate].
  injection Hrun as <- <- <-.
  assert (Hone : last_n (capacity (rate.frequency r0)) [b0] = [b0]).
  { unfold last_n. cbn [length].
    destruct (quot_window (Frequency cfg)) as [_ Hq]. destruct (Hq Hw) as [Hcap Ecap].
    rewrite Hf.
    replace (1 - Z.to_nat (capacity (Frequency cfg)))%nat with 0%nat by lia.
    reflexivity. }
  destruct (steps_returned cfg logger sched r0 [b0] b0 r1 b1 evs1)
    as (E1 & E2 & E3 & E4).
  { rewrite Hf. exact Hw. }
  { rewrite Hone. exact Hr. }
  { rewrite Hr. exact Ha. }
  { exact Hsteps. }
  rewrite Hf, Hc in *. cbn [app] in *.
  exists b0. split; [exact Hs|]. split; [exact E1|]. split; [exact E2|].
  split; [exact E3|].
  rewrite sent_app, Forall_app. split.
  - rewrite Hsent. apply Forall_fmap, Forall_forall. intros h Hh. cbn [fst snd].
    split; [|left; exact Hts].
    destruct Hpre as [k ->]. apply list_elem_of_In, elem_of_app. left. exact Hh.
  - eapply Forall_impl; [exact E4|]. intros hs [Hin Hb]. auto.
Qed.

Lemma Qsum_replicate (n : nat) (x : Decimal) :
  (Qsum (map toQ (replicate n x)) == inject_Z (Z.of_nat n) * toQ x)%Q.
Proof.
  induction n as [|n IH]; cbn [replicate map Qsum foldr].
  - ring.
  - fold (Qsum (map toQ (replicate n x))). rewrite IH, Nat2Z.inj_succ.
    unfold Z.succ. rewrite inject_Z_plus. ring.
Qed.

Lemma round_half_away_integer (k : Z) : round_half_away (inject_Z k) = k.
Proof.
  unfold inject_Z. rewrite round_half_away_frac.
  replace ((2 * Z.abs k + 1) / (2 * 1)) with (Z.abs k)
    by (apply (Z.div_unique_pos _ _ _ 1); lia).
  destruct k; cbv [Z.sgn Z.abs]; lia.
Qed.

(** The rounded mean of copies of one sample with at most 16 fractional
    digits is that sample. *)
Lemma rounded_mean_replicate (n : nat) (x : Decimal) :
  (0 < n)%nat -> -16 <= exp x ->
  (toQ (rounded_mean (replicate n x)) == toQ x)%Q.
Proof.
  intros Hn He. rewrite toQ_rounded_mean.
  assert (Hm : (mean (replicate n x) == toQ x)%Q).
  { unfold mean. rewrite Qsum_replicate, length_replicate. field.
    intros E. cbv [Qeq Qnum Qden inject_Z] in E. lia. }
  assert (Hk : (mean (replicate n x) * ten ^ 16
                == inject_Z (value x * 10 ^ (exp x + 16)))%Q).
  { rewrite Hm. unfold toQ. rewrite inject_Z_mult, pow10_inject by lia.
    rewrite pow10_add. ring. }
  rewrite Hk, round_half_away_integer.
  rewrite inject_Z_mult, pow10_inject by lia. unfold toQ.
  rewrite pow10_add. field; try apply pow10_nonzero.
Qed.

(** X19: when the samples in the buffer after a refresh are all the same
    rate, one with at most 16 fractional digits, the cached average is
    exactly that rate; against that rate as the baseline the test of the
    threshold does not fire (for a rate and a threshold whose product is a
    decimal, the sum of their exponents fitting an [int32], and is not
    negative), so a rate that stays the same triggers no update. *)
Theorem constant_samples_average_to_the_sample
    (ra : rate.Averager) (sc : rate.Quote) ra' res out
    (x percentage : Decimal) :
  rate.Update NewFromFloat ra sc = Returned (ra', res, out) ->
  succeeded res ->
  Forall (fun y => x = y) (rate.rates ra') ->
  -16 <= exp x ->
  (toQ (rate.Rate ra') == toQ x)%Q /\
  (int32 (exp x + exp percentage) ->
   (0 <= toQ x * toQ percentage)%Q ->
   isOverThreshold x (rate.Rate ra') percentage = Returned false).
Proof.
  intros Hrun Hok Hall He.
  destruct (Update_ends NewFromFloat ra sc)
    as [y cause G|y G F|y G F B|y buffer G F B NE O|y buffer G F B NE O]; try discriminate;
    injection Hrun as <- <- <-; [discriminate Hok|].
  cbn [rate.rates rate.Rate rate.average] in *.
  assert (Hb : buffer = replicate (length buffer) x).
  { symmetry. apply replicate_as_Forall. auto. }
  assert (E : (toQ (rounded_mean buffer) == toQ x)%Q).
  { rewrite Hb. apply rounded_mean_replicate; [|exact He].
    destruct buffer; [contradiction | cbn [length]; lia]. }
  split; [exact E|]. intros Hfit Hpos. apply isOverThreshold_false; [exact Hfit|].
  rewrite E. assert (toQ x - toQ x == 0)%Q as -> by ring. exact Hpos.
Qed.

End Main.

Import examples.

(** X19 on a second sample equal to the first. *)
Lemma constant_samples_average_to_the_sample_witness :
  let ra := rate.mkAverager zap.NewNop "usd" (5 * time.Minute) [milli 4]
              (decimal.New 40000000000000 (-16)) in
  let ra' := rate.mkAverager zap.NewNop "usd" (5 * time.Minute) [milli 4; milli 4]
               (decimal.New 40000000000000 (-16)) in
  let res := (milli 4, @None error) in
  rate.Update numeral ra (usd (milli 4)) = Returned (ra', res, []) /\
  succeeded res /\
  Forall (fun y => milli 4 = y) (rate.rates ra') /\
  -16 <= exp (milli 4) /\
  int32 (exp (milli 4) + exp (Threshold defaults)) /\
  (0 <= toQ (milli 4) * toQ (Threshold defaults))%Q /\
  (toQ (rate.Rate ra') == toQ (milli 4))%Q /\
  isOverThreshold (milli 4) (rate.Rate ra') (Threshold defaults) = Returned false.
Proof.
  intros ra ra' res.
  assert (H1 : rate.Update numeral ra (usd (milli 4)) = Returned (ra', res, []))
    by (vm_compute; reflexivity).
  assert (H2 : succeeded res) by reflexivity.
  assert (H3 : Forall (fun y => milli 4 = y) (rate.rates ra'))
    by (repeat constructor).
  assert (H4 : -16 <= exp (milli 4)) by (vm_compute; discriminate).
  assert (H5 : (0 <= toQ (milli 4) * toQ (Threshold defaults))%Q)
    by (vm_compute; discriminate).
  assert (H6 : int32 (exp (milli 4) + exp (Threshold defaults)))
    by (vm_compute; split; discriminate).
  refine (conj H1 (conj H2 (conj H3 (conj H4 (conj H6 (conj H5 _)))))).
  destruct (constant_samples_average_to_the_sample numeral ra (usd (milli 4)) ra' res []
              (milli 4) (Threshold defaults) H1 H2 H3 H4) as [E T].
  exact (conj E (T H6 H5)).
Defined.

(** X16 on the configuration [main] starts from and a first rate of
    0.005. *)
Lemma startup_sets_the_baseline_to_the_first_sample_witness :
  exists r evs,
    hpind_main.startup numeral defaults console (usd (milli 5)) all_up
      = Returned (r, milli 5, evs) /\
    terms.sample numeral (Currency_ defaults) (usd (milli 5)) = Some (milli 5) /\
    0 < Frequency defaults <= window /\
    rate.frequency r = Frequency defaults /\ rate.currency r = Currency_ defaults /\
    rate.rates r = [milli 5] /\ rate.Rate r = rounded_mean [milli 5] /\
    exists s,
      target_settings (Prices_ defaults) (milli 5) = Returned s /\
      sent evs = (fun h => (h, s)) <$> called evs /\
      called evs `prefix_of` Hosts defaults.
Proof.
  assert (H : exists r evs,
             hpind_main.startup numeral defaults console (usd (milli 5)) all_up
             = Returned (r, milli 5, evs))
    by (eexists _, _; vm_compute; reflexivity).
  destruct H as (r & evs & H). exists r, evs.
  refine (conj H _).
  exact (startup_sets_the_baseline_to_the_first_sample numeral defaults console
           (usd (milli 5)) all_up r (milli 5) evs H).
Defined.

(** X17 on a run with one refresh and one turn after the start. *)
Lemma run_sends_prices_at_the_first_rate_or_an_average_witness :
  let sched := [hpind_main.Sample (usd (milli 7)); hpind_main.Decide all_up] in
  let taken := schedule_samples numeral (Currency_ defaults) sched in
  exists r' lastRate' evs,
    hpind_main.run numeral defaults console (usd (milli 5)) all_up sched
      = Returned (r', lastRate', evs) /\
    exists x,
      terms.sample numeral (Currency_ defaults) (usd (milli 5)) = Some x /\
      rate.rates r' = last_n (capacity (Frequency defaults)) (x :: taken) /\
      rate.Rate r' = rounded_mean (rate.rates r') /\
      (lastRate' = x \/
       exists pre,
         pre `prefix_of` taken /\
         lastRate' = rounded_mean (last_n (capacity (Frequency defaults)) (x :: pre))) /\
      Forall (fun hs =>
                In hs.1 (Hosts defaults) /\
                (target_settings (Prices_ defaults) x = Returned hs.2 \/
                 exists pre,
                   pre `prefix_of` taken /\
                   target_settings (Prices_ defaults)
                     (rounded_mean (last_n (capacity (Frequency defaults)) (x :: pre)))
                   = Returned hs.2))
             (sent evs).
Proof.
  intros sched taken.
  assert (H : exists p,
             hpind_main.run numeral defaults console (usd (milli 5)) all_up sched
             = Returned p) by (eexists; vm_compute; reflexivity).
  destruct H as [[[r' lastRate'] evs] H]. exists r', lastRate', evs.
  refine (conj H _).
  exact (run_sends_prices_at_the_first_rate_or_an_average numeral defaults console
           (usd (milli 5)) all_up sched r' lastRate' evs H).
Defined.

End main_more.
